(** * ReactBackend: comments, likes, views and pagination

    A shallow embedding of the Express route handlers of the blog backend
    (routes/comments.js, the admin routes, the posts routes) over an explicit
    relational store, together with the properties of the threaded-comment
    subsystem, the like/view counters and the pagination arithmetic.

    Conventions of the embedding.
    - A table is the list of its rows.  The schema of config/database.js is
      kept: the AUTO_INCREMENT ids, the unique key of [likes] and the foreign
      keys with their ON DELETE CASCADE actions are part of the store
      operations.
      The cascade follows the references as far as they go (InnoDB gives up
      beyond 15 levels).
    - Integers (ids, counters, page numbers) are [Z].  JavaScript numbers are
      exact on integers below 2^53; the INT and TEXT columns are not bounded
      here.
    - Route parameters [:id] are taken as the integer MySQL compares the
      column with.
    - [req.user] is set by the [auth] and [adminAuth] middleware
      (middleware/auth.js), which the handlers only call: a handler behind
      them takes the requester, a row of [users], as an argument and reads
      its id and role.
    - A handler is a function from the store to the new store and the
      response; an exception of the store client is the [500] answer of the
      handler's [catch] block.
    - Columns no modelled handler reads or writes (password, email, excerpt,
      featured_image, updated_at) are left out of the rows. *)

From Stdlib Require Import List ZArith String Ascii Bool Lia.
From Stdlib Require Import Permutation Sorted.
From Stdlib Require QArith Qround.
Import ListNotations.

Open Scope string_scope.
Open Scope Z_scope.

(* ================================================================== *)
(** ** JavaScript values and coercions used by the handlers *)
(* ================================================================== *)

Module JS.

(** The values a JSON body field or a parsed validator input can take here:
    absent, an integer number, or a string. *)
Inductive jsval : Type :=
| JUndefined
| JNum (z : Z)
| JStr (s : string).

(** ToBoolean: [undefined], [0] and the empty string are falsy. *)
Definition truthy (v : jsval) : bool :=
  match v with
  | JUndefined => false
  | JNum z => negb (z =? 0)
  | JStr s => negb (s =? EmptyString)%string
  end.

Definition is_digit (c : ascii) : bool :=
  ((48 <=? nat_of_ascii c) && (nat_of_ascii c <=? 57))%nat.

Definition digit_val (c : ascii) : Z := Z.of_nat (nat_of_ascii c) - 48.

(** Digit of [c] in radix 10 or 16, as parseInt reads it. *)
Definition digit_in (radix : Z) (c : ascii) : option Z :=
  let n := nat_of_ascii c in
  if is_digit c then Some (digit_val c)
  else if radix =? 16 then
    if ((97 <=? n) && (n <=? 102))%nat then Some (Z.of_nat n - 87)
    else if ((65 <=? n) && (n <=? 70))%nat then Some (Z.of_nat n - 55)
    else None
  else None.

(** White space skipped by parseInt (the ASCII part of it). *)
Definition is_space (c : ascii) : bool :=
  let n := nat_of_ascii c in
  ((n =? 32) || ((9 <=? n) && (n <=? 13)))%nat.

Fixpoint skip_spaces (s : string) : string :=
  match s with
  | String c r => if is_space c then skip_spaces r else s
  | EmptyString => s
  end.

(** A leading sign: [(negative, rest)]. *)
Definition strip_sign (s : string) : bool * string :=
  match s with
  | String "-"%char r => (true, r)
  | String "+"%char r => (false, r)
  | _ => (false, s)
  end.

Definition strip_hex_prefix (s : string) : Z * string :=
  match s with
  | String "0"%char (String "x"%char r) => (16, r)
  | String "0"%char (String "X"%char r) => (16, r)
  | _ => (10, s)
  end.

(** The longest prefix of radix digits, folded to its value; [acc] is
    [None] while no digit has been read. *)
Fixpoint read_digits (radix : Z) (s : string) (acc : option Z) : option Z :=
  match s with
  | EmptyString => acc
  | String c r =>
      match digit_in radix c with
      | Some d =>
          read_digits radix r
            (Some (radix * (match acc with Some a => a | None => 0 end) + d))
      | None => acc
      end
  end.

(** [parseInt(s)] with no radix argument; [None] is NaN. *)
Definition parseInt (s : string) : option Z :=
  let (neg, s1) := strip_sign (skip_spaces s) in
  let (radix, s2) := strip_hex_prefix s1 in
  match read_digits radix s2 None with
  | Some n => Some (if neg then - n else n)
  | None => None
  end.

(** [parseInt(req.query.x)]: a missing parameter is [undefined], which
    parses to NaN. *)
Definition parseInt_query (q : option string) : option Z :=
  match q with
  | Some s => parseInt s
  | None => None
  end.

(** [n || d] on a parseInt result: NaN and 0 are falsy. *)
Definition or_default (n : option Z) (d : Z) : Z :=
  match n with
  | Some z => if z =? 0 then d else z
  | None => d
  end.

Fixpoint all_digits (s : string) : bool :=
  match s with
  | EmptyString => true
  | String c r => is_digit c && all_digits r
  end.

(** validator.js [isInt] with its default options: [/^[-+]?[0-9]+$/]. *)
Definition isInt_str (s : string) : bool :=
  let (_, r) := strip_sign s in
  negb (r =? EmptyString)%string && all_digits r.

(** express-validator applies [isInt] to the string form of the value; an
    absent value is the empty string. *)
Definition isInt (v : jsval) : bool :=
  match v with
  | JUndefined => false
  | JNum _ => true
  | JStr s => isInt_str s
  end.

(** The integer a placeholder value denotes when MySQL compares it with an
    INT column or stores it in one. *)
Definition sql_int (v : jsval) : option Z :=
  match v with
  | JUndefined => None
  | JNum z => Some z
  | JStr s =>
      let (neg, r) := strip_sign s in
      match read_digits 10 r None with
      | Some n => Some (if neg then - n else n)
      | None => Some 0
      end
  end.

End JS.

(* ================================================================== *)
(** ** Data model (config/database.js) *)
(* ================================================================== *)

Inductive Role : Type := user | admin.
Inductive Status : Type := draft | published.

Definition Role_eqb (a b : Role) : bool :=
  match a, b with
  | user, user | admin, admin => true
  | _, _ => false
  end.

Definition Status_eqb (a b : Status) : bool :=
  match a, b with
  | draft, draft | published, published => true
  | _, _ => false
  end.

Record User : Type := mkUser {
  u_id : Z;
  u_username : string;
  u_full_name : option string;
  u_avatar : option string;
  u_role : Role;
  u_bio : option string;
  u_created_at : Z
}.

Record Post : Type := mkPost {
  p_id : Z;
  p_title : string;
  p_content : string;
  p_author_id : Z;
  p_status : Status;
  p_views : Z;
  p_likes : Z;
  p_created_at : Z
}.

Record Comment : Type := mkComment {
  c_id : Z;
  c_content : string;
  c_post_id : Z;
  c_user_id : Z;
  c_parent_id : option Z;
  c_created_at : Z
}.

Record Like : Type := mkLike {
  l_id : Z;
  l_user_id : Z;
  l_post_id : Z;
  l_created_at : Z
}.

(** The store: the four tables and the AUTO_INCREMENT counters of the two
    tables the modelled handlers insert into. *)
Record Store : Type := mkStore {
  users : list User;
  posts : list Post;
  comments : list Comment;
  likes : list Like;
  next_comment_id : Z;
  next_like_id : Z
}.

(* ================================================================== *)
(** ** The relational store: statements issued by the handlers *)
(* ================================================================== *)

Module Sql.

Definition has_user (st : Store) (id : Z) : bool :=
  existsb (fun u => u_id u =? id) (users st).

Definition has_post (st : Store) (id : Z) : bool :=
  existsb (fun p => p_id p =? id) (posts st).

Definition has_comment (st : Store) (id : Z) : bool :=
  existsb (fun c => c_id c =? id) (comments st).

Definition mem_id (ids : list Z) (id : Z) : bool := existsb (Z.eqb id) ids.

(** The row refers, through [parent_id], to one of the ids [dead]. *)
Definition parent_among (dead : list Z) (c : Comment) : bool :=
  match c_parent_id c with
  | Some p => mem_id dead p
  | None => false
  end.

(** FOREIGN KEY (parent_id) REFERENCES comments(id) ON DELETE CASCADE:
    once the rows with ids [dead] are gone, the rows that refer to them go
    too, and so on.  Each round removes at least one row or stops. *)
Fixpoint cascade_replies (fuel : nat) (dead : list Z) (cs : list Comment)
  : list Comment :=
  match fuel with
  | O => cs
  | S f =>
      match filter (parent_among dead) cs with
      | [] => cs
      | gone =>
          cascade_replies f (map c_id gone)
            (filter (fun c => negb (parent_among dead c)) cs)
      end
  end.

(** DELETE FROM comments WHERE [sel], with the cascade of the schema. *)
Definition delete_from_comments (sel : Comment -> bool) (cs : list Comment)
  : list Comment :=
  let kept := filter (fun c => negb (sel c)) cs in
  cascade_replies (List.length kept) (map c_id (filter sel cs)) kept.

Definition delete_comments_where (sel : Comment -> bool) (st : Store) : Store :=
  mkStore (users st) (posts st) (delete_from_comments sel (comments st))
    (likes st) (next_comment_id st) (next_like_id st).

(** DELETE FROM posts WHERE [sel]: comments and likes of the removed posts
    go with them (ON DELETE CASCADE on [post_id]). *)
Definition delete_posts_where (sel : Post -> bool) (st : Store) : Store :=
  let dead := map p_id (filter sel (posts st)) in
  mkStore (users st)
    (filter (fun p => negb (sel p)) (posts st))
    (delete_from_comments (fun c => mem_id dead (c_post_id c)) (comments st))
    (filter (fun l => negb (mem_id dead (l_post_id l))) (likes st))
    (next_comment_id st) (next_like_id st).

(** DELETE FROM users WHERE [sel]: the posts, comments and likes the
    removed users own go with them, and what those posts own in turn. *)
Definition delete_users_where (sel : User -> bool) (st : Store) : Store :=
  let dead_u := map u_id (filter sel (users st)) in
  let dead_post p := mem_id dead_u (p_author_id p) in
  let dead_p := map p_id (filter dead_post (posts st)) in
  mkStore
    (filter (fun u => negb (sel u)) (users st))
    (filter (fun p => negb (dead_post p)) (posts st))
    (delete_from_comments
       (fun c => mem_id dead_u (c_user_id c) || mem_id dead_p (c_post_id c))
       (comments st))
    (filter (fun l => negb (mem_id dead_u (l_user_id l)
                        || mem_id dead_p (l_post_id l))) (likes st))
    (next_comment_id st) (next_like_id st).

(** AUTO_INCREMENT: the id given to a new row is the table's counter, which
    the engine keeps above every id in use. *)
Definition max_id (ids : list Z) : Z := fold_right Z.max 0 ids.

Definition auto_increment (counter : Z) (ids : list Z) : Z :=
  Z.max counter (max_id ids + 1).

(** INSERT INTO comments (content, post_id, user_id, parent_id).  The
    statement fails on a NULL [post_id] (NOT NULL) or on an unmatched foreign
    key.  Returns the store and [insertId]. *)
Definition insert_comment (content : string) (post_id : option Z)
    (user_id : Z) (parent_id : option Z) (now : Z) (st : Store)
  : option (Store * Z) :=
  let id := auto_increment (next_comment_id st) (map c_id (comments st)) in
  match post_id with
  | None => None
  | Some pid =>
      if negb (has_post st pid) then None
      else if negb (has_user st user_id) then None
      else if match parent_id with
              | Some q => negb (has_comment st q)
              | None => false
              end then None
      else
        Some (mkStore (users st) (posts st)
                (comments st ++ [mkComment id content pid user_id parent_id now])
                (likes st) (id + 1) (next_like_id st),
              id)
  end.

(** UPDATE comments SET content = ? WHERE id = ? *)
Definition update_comment_content (id : Z) (content : string) (st : Store)
  : Store :=
  mkStore (users st) (posts st)
    (map (fun c => if c_id c =? id
                   then mkComment (c_id c) content (c_post_id c) (c_user_id c)
                          (c_parent_id c) (c_created_at c)
                   else c) (comments st))
    (likes st) (next_comment_id st) (next_like_id st).

(** INSERT INTO likes (user_id, post_id): fails on the unique key
    (user_id, post_id) or on an unmatched foreign key. *)
Definition insert_like (user_id post_id : Z) (now : Z) (st : Store)
  : option Store :=
  let id := auto_increment (next_like_id st) (map l_id (likes st)) in
  if existsb (fun l => (l_user_id l =? user_id) && (l_post_id l =? post_id))
       (likes st) then None
  else if negb (has_user st user_id) then None
  else if negb (has_post st post_id) then None
  else
    Some (mkStore (users st) (posts st) (comments st)
            (likes st ++ [mkLike id user_id post_id now])
            (next_comment_id st) (id + 1)).

(** DELETE FROM likes WHERE user_id = ? AND post_id = ? *)
Definition delete_like (user_id post_id : Z) (st : Store) : Store :=
  mkStore (users st) (posts st) (comments st)
    (filter (fun l => negb ((l_user_id l =? user_id) && (l_post_id l =? post_id)))
       (likes st))
    (next_comment_id st) (next_like_id st).

(** UPDATE posts SET [f] WHERE id = ? *)
Definition update_post (id : Z) (f : Post -> Post) (st : Store) : Store :=
  mkStore (users st)
    (map (fun p => if p_id p =? id then f p else p) (posts st))
    (comments st) (likes st) (next_comment_id st) (next_like_id st).

Definition add_likes (d : Z) (p : Post) : Post :=
  mkPost (p_id p) (p_title p) (p_content p) (p_author_id p) (p_status p)
    (p_views p) (p_likes p + d) (p_created_at p).

Definition add_views (d : Z) (p : Post) : Post :=
  mkPost (p_id p) (p_title p) (p_content p) (p_author_id p) (p_status p)
    (p_views p + d) (p_likes p) (p_created_at p).

Definition set_status (s : Status) (p : Post) : Post :=
  mkPost (p_id p) (p_title p) (p_content p) (p_author_id p) s
    (p_views p) (p_likes p) (p_created_at p).

(** LIMIT ? OFFSET ?: MySQL accepts nonnegative constants only; a negative
    one is a syntax error of the statement. *)
Definition limit_offset {A : Type} (limit offset : Z) (rows : list A)
  : option (list A) :=
  if (limit <? 0) || (offset <? 0) then None
  else Some (firstn (Z.to_nat limit) (skipn (Z.to_nat offset) rows)).

(** ORDER BY created_at DESC / ASC, as a stable insertion sort on the
    key. *)
Fixpoint insert_by {A : Type} (le : A -> A -> bool) (x : A) (l : list A)
  : list A :=
  match l with
  | [] => [x]
  | y :: r => if le x y then x :: l else y :: insert_by le x r
  end.

Definition order_by {A : Type} (le : A -> A -> bool) (l : list A) : list A :=
  fold_right (insert_by le) [] l.

End Sql.

(* ================================================================== *)
(** ** Responses *)
(* ================================================================== *)

(** A comment row joined with the display fields of its author. *)
Record CommentView : Type := mkCommentView {
  cv_row : Comment;
  cv_username : string;
  cv_full_name : option string;
  cv_avatar : option string
}.

Record CommentItem : Type := mkCommentItem {
  ci_view : CommentView;
  ci_replies_count : Z
}.

Record PostView : Type := mkPostView {
  pv_row : Post;
  pv_username : string;
  pv_full_name : option string;
  pv_avatar : option string;
  pv_bio : option string;
  pv_comment_count : Z
}.

Record Pagination : Type := mkPagination {
  current : Z;
  total : Z;
  hasNext : bool;
  hasPrev : bool
}.

Inductive Body : Type :=
| Message (message : string)
| ValidationErrors (errors : list string)
| CommentAdded (message : string) (comment : option CommentView)
| CommentPage (items : list CommentItem) (pagination : Pagination)
| Replies (replies : list CommentView)
| LikeToggled (message : string) (liked : bool)
| PostFound (post : PostView).

Record Response : Type := mkResponse {
  status : Z;
  body : Body
}.

Definition server_error : Response := mkResponse 500 (Message "Server error").

(** [a = ?] in a WHERE clause: a NULL placeholder matches no row. *)
Definition sql_eq (col : Z) (v : option Z) : bool :=
  match v with
  | Some z => col =? z
  | None => false
  end.

Definition is_null (v : option Z) : bool :=
  match v with
  | Some _ => false
  | None => true
  end.

(** [WHERE id = ? OR parent_id = ?], the clause of both comment deletes. *)
Definition id_or_parent_is (id : Z) (c : Comment) : bool :=
  (c_id c =? id) || sql_eq id (c_parent_id c).

(* ================================================================== *)
(** ** Pagination, as every list handler computes it *)
(* ================================================================== *)

Module Paging.

(** The handlers that read [page] and [limit] from the query string. *)
Inductive ListEndpoint : Type :=
| PostCommentsList      (* GET /comments/post/:postId *)
| UserCommentsList      (* GET /comments/user/:userId *)
| AdminUsersList        (* GET /admin/users *)
| AdminPostsList        (* GET /admin/posts *)
| AdminCommentsList     (* GET /admin/comments *)
| PostsList             (* GET /posts *)
| UserPostsList         (* GET /posts/user/:userId *)
| ProfilePostsList      (* GET /users/:username/posts *)
| ProfileCommentsList   (* GET /users/:username/comments *)
| UserSearchList.       (* GET /users/search/:query *)

Definition default_limit (e : ListEndpoint) : Z :=
  match e with
  | PostCommentsList | AdminUsersList | AdminPostsList | AdminCommentsList => 20
  | _ => 10
  end.

Definition default_page : Z := 1.

(** [const page = parseInt(req.query.page) || 1] *)
Definition page_of (q_page : option string) : Z :=
  JS.or_default (JS.parseInt_query q_page) default_page.

(** [const limit = parseInt(req.query.limit) || 20] (or [10]) *)
Definition limit_of (e : ListEndpoint) (q_limit : option string) : Z :=
  JS.or_default (JS.parseInt_query q_limit) (default_limit e).

(** [const offset = (page - 1) * limit] *)
Definition offset_of (page limit : Z) : Z := (page - 1) * limit.

(** [Math.ceil(total / limit)]: the quotient is the exact rational one;
    [limit] is never 0 here. *)
Definition ceil_div (total limit : Z) : Z :=
  Qround.Qceiling
    (QArith_base.Qdiv (QArith_base.inject_Z total) (QArith_base.inject_Z limit)).

(** The [pagination] object of the response. *)
Definition pagination_of (page limit count : Z) : Pagination :=
  mkPagination page (ceil_div count limit) (page * limit <? count) (1 <? page).

(** What the list handlers have in common: read [page] and [limit], run the
    handler's ordered query [rows] with LIMIT and OFFSET, then build the
    [pagination] object from the handler's COUNT query.  [None] is the
    failure of the first query. *)
Definition paginate {A : Type} (e : ListEndpoint) (q_page q_limit : option string)
    (rows : list A) (count : Z) : option (list A * Pagination) :=
  let page := page_of q_page in
  let limit := limit_of e q_limit in
  let offset := offset_of page limit in
  match Sql.limit_offset limit offset rows with
  | Some slice => Some (slice, pagination_of page limit count)
  | None => None
  end.

End Paging.

(* ================================================================== *)
(** ** routes/comments.js *)
(* ================================================================== *)

Module Comments.

(** [FROM comments c JOIN users u ON c.user_id = u.id] for one row [c]. *)
Definition join_user (st : Store) (c : Comment) : list CommentView :=
  map (fun u => mkCommentView c (u_username u) (u_full_name u) (u_avatar u))
    (filter (fun u => c_user_id c =? u_id u) (users st)).

(** [(SELECT COUNT( * ) FROM comments WHERE parent_id = c.id)] *)
Definition replies_count (st : Store) (id : Z) : Z :=
  Z.of_nat (List.length
              (filter (fun r => sql_eq id (c_parent_id r)) (comments st))).

Definition newest_first (a b : Comment) : bool :=
  c_created_at b <=? c_created_at a.

Definition oldest_first (a b : Comment) : bool :=
  c_created_at a <=? c_created_at b.

(** Top-level comments of a post, newest first, before LIMIT/OFFSET. *)
Definition top_level_of_post (st : Store) (postId : Z) : list CommentItem :=
  map (fun v => mkCommentItem v (replies_count st (c_id (cv_row v))))
    (flat_map (join_user st)
       (Sql.order_by newest_first
          (filter (fun c => (c_post_id c =? postId) && is_null (c_parent_id c))
             (comments st)))).

(** [SELECT COUNT( * ) as total FROM comments
     WHERE post_id = ? AND parent_id IS NULL] *)
Definition count_top_level_of_post (st : Store) (postId : Z) : Z :=
  Z.of_nat (List.length
              (filter (fun c => (c_post_id c =? postId) && is_null (c_parent_id c))
                 (comments st))).

(** GET /comments/post/:postId *)
Definition get_post_comments (postId : Z) (q_page q_limit : option string)
    (st : Store) : Response :=
  match Paging.paginate Paging.PostCommentsList q_page q_limit
          (top_level_of_post st postId) (count_top_level_of_post st postId) with
  | Some (rows, pg) => mkResponse 200 (CommentPage rows pg)
  | None => server_error
  end.

(** GET /comments/comment/:commentId/replies *)
Definition get_replies (commentId : Z) (st : Store) : Response :=
  mkResponse 200
    (Replies
       (flat_map (join_user st)
          (Sql.order_by oldest_first
             (filter (fun c => sql_eq commentId (c_parent_id c)) (comments st))))).

(** The validation chain of POST /comments.  [content] is the body's
    content, the empty string when the field is missing: [notEmpty] rejects
    both alike. *)
Definition add_comment_errors (content : string) (post_id parent_id : JS.jsval)
  : list string :=
  (if (content =? EmptyString)%string then ["Comment content is required"] else [])
  ++ (if JS.isInt post_id then [] else ["Valid post ID is required"])
  ++ (match parent_id with
      | JS.JUndefined => []
      | _ => if JS.isInt parent_id then []
             else ["Valid parent comment ID is required"]
      end).

(** POST /comments, behind [auth]: [requester] is [req.user]. *)
Definition add_comment (requester : User) (content : string)
    (post_id parent_id : JS.jsval) (now : Z) (st : Store) : Store * Response :=
  match add_comment_errors content post_id parent_id with
  | (_ :: _) as errs => (st, mkResponse 400 (ValidationErrors errs))
  | [] =>
      (* Verify post exists *)
      match filter (fun p => sql_eq (p_id p) (JS.sql_int post_id)
                             && Status_eqb (p_status p) published) (posts st) with
      | [] => (st, mkResponse 404 (Message "Post not found"))
      | _ :: _ =>
          (* Verify parent comment exists if provided *)
          if JS.truthy parent_id
             && match filter (fun c => sql_eq (c_id c) (JS.sql_int parent_id)
                                       && sql_eq (c_post_id c) (JS.sql_int post_id))
                        (comments st) with
                | [] => true
                | _ :: _ => false
                end
          then (st, mkResponse 404 (Message "Parent comment not found"))
          else
            match Sql.insert_comment content (JS.sql_int post_id) (u_id requester)
                    (if JS.truthy parent_id then JS.sql_int parent_id else None)
                    now st with
            | None => (st, server_error)
            | Some (st', insertId) =>
                (st', mkResponse 201
                        (CommentAdded "Comment added successfully"
                           (hd_error
                              (flat_map (join_user st')
                                 (filter (fun c => c_id c =? insertId)
                                    (comments st'))))))
            end
      end
  end.

(** PUT /comments/:id, behind [auth]. *)
Definition update_comment (requester : User) (commentId : Z) (content : string)
    (st : Store) : Store * Response :=
  if (content =? EmptyString)%string
  then (st, mkResponse 400 (ValidationErrors ["Comment content is required"]))
  else
    (* Check if user owns the comment *)
    match filter (fun c => (c_id c =? commentId)
                           && (c_user_id c =? u_id requester)) (comments st) with
    | [] => (st, mkResponse 404 (Message "Comment not found or access denied"))
    | _ :: _ =>
        (Sql.update_comment_content commentId content st,
         mkResponse 200 (Message "Comment updated successfully"))
    end.

(** DELETE /comments/:id, behind [auth]. *)
Definition delete_comment (requester : User) (commentId : Z) (st : Store)
  : Store * Response :=
  (* Check if user owns the comment or is admin *)
  match filter (fun c => (c_id c =? commentId)
                         && ((c_user_id c =? u_id requester)
                             || Role_eqb (u_role requester) admin))
          (comments st) with
  | [] => (st, mkResponse 404 (Message "Comment not found or access denied"))
  | _ :: _ =>
      (* Delete comment and all its replies *)
      (Sql.delete_comments_where (id_or_parent_is commentId) st,
       mkResponse 200 (Message "Comment deleted successfully"))
  end.

End Comments.

(* ================================================================== *)
(** ** routes/posts.js *)
(* ================================================================== *)

Module Posts.

(** [(SELECT COUNT( * ) FROM comments WHERE post_id = p.id)] *)
Definition comment_count (st : Store) (id : Z) : Z :=
  Z.of_nat (List.length (filter (fun c => c_post_id c =? id) (comments st))).

(** [FROM posts p JOIN users u ON p.author_id = u.id] for one row [p]. *)
Definition join_author (st : Store) (p : Post) : list PostView :=
  map (fun u => mkPostView p (u_username u) (u_full_name u) (u_avatar u)
                  (u_bio u) (comment_count st (p_id p)))
    (filter (fun u => p_author_id p =? u_id u) (users st)).

(** GET /posts/:id (no [auth]: the handler never looks at the caller). *)
Definition get_post (postId : Z) (st : Store) : Store * Response :=
  (* Increment view count *)
  let st1 := Sql.update_post postId (Sql.add_views 1) st in
  match flat_map (join_author st1)
          (filter (fun p => (p_id p =? postId)
                            && Status_eqb (p_status p) published) (posts st1)) with
  | [] => (st1, mkResponse 404 (Message "Post not found"))
  | v :: _ => (st1, mkResponse 200 (PostFound v))
  end.

(** DELETE /posts/:id, behind [auth]. *)
Definition delete_post (requester : User) (postId : Z) (st : Store)
  : Store * Response :=
  match filter (fun p => (p_id p =? postId)
                         && ((p_author_id p =? u_id requester)
                             || Role_eqb (u_role requester) admin))
          (posts st) with
  | [] => (st, mkResponse 404 (Message "Post not found or access denied"))
  | _ :: _ =>
      (Sql.delete_posts_where (fun p => p_id p =? postId) st,
       mkResponse 200 (Message "Post deleted successfully"))
  end.

(** POST /posts/:id/like, behind [auth]. *)
Definition toggle_like (requester : User) (postId : Z) (now : Z) (st : Store)
  : Store * Response :=
  (* Check if already liked *)
  match filter (fun l => (l_user_id l =? u_id requester)
                         && (l_post_id l =? postId)) (likes st) with
  | _ :: _ =>
      (* Unlike *)
      (Sql.update_post postId (Sql.add_likes (-1))
         (Sql.delete_like (u_id requester) postId st),
       mkResponse 200 (LikeToggled "Post unliked" false))
  | [] =>
      (* Like *)
      match Sql.insert_like (u_id requester) postId now st with
      | None => (st, server_error)
      | Some st1 =>
          (Sql.update_post postId (Sql.add_likes 1) st1,
           mkResponse 200 (LikeToggled "Post liked" true))
      end
  end.

End Posts.

(* ================================================================== *)
(** ** routes/admin.js (handlers behind [adminAuth]) *)
(* ================================================================== *)

Module Admin.

(** DELETE /admin/comments/:id *)
Definition delete_comment (commentId : Z) (st : Store) : Store * Response :=
  (Sql.delete_comments_where
     (id_or_parent_is commentId) st,
   mkResponse 200 (Message "Comment deleted successfully")).

(** DELETE /admin/posts/:id *)
Definition delete_post (postId : Z) (st : Store) : Store * Response :=
  (Sql.delete_posts_where (fun p => p_id p =? postId) st,
   mkResponse 200 (Message "Post deleted successfully")).

(** DELETE /admin/users/:id *)
Definition delete_user (requester : User) (userId : Z) (st : Store)
  : Store * Response :=
  (* Prevent admin from deleting themselves *)
  if userId =? u_id requester
  then (st, mkResponse 400 (Message "Cannot delete your own account"))
  else
    (Sql.delete_users_where (fun u => u_id u =? userId) st,
     mkResponse 200 (Message "User deleted successfully")).

(** PUT /admin/posts/:id/status; the body's [status] passed [isIn] when it
    is one of the two names. *)
Definition update_post_status (postId : Z) (new_status : string) (st : Store)
  : Store * Response :=
  match (if (new_status =? "draft")%string then Some draft
         else if (new_status =? "published")%string then Some published
         else None) with
  | None => (st, mkResponse 400 (ValidationErrors ["Invalid status"]))
  | Some s =>
      (Sql.update_post postId (Sql.set_status s) st,
       mkResponse 200 (Message "Post status updated successfully"))
  end.

End Admin.

(* ================================================================== *)
(** ** Requests that write to the store *)
(* ================================================================== *)

(** One constructor per modelled handler that issues an INSERT, UPDATE or
    DELETE. *)
Inductive Request : Type :=
| AddComment (requester : User) (content : string) (post_id parent_id : JS.jsval)
    (now : Z)
| UpdateComment (requester : User) (commentId : Z) (content : string)
| DeleteComment (requester : User) (commentId : Z)
| AdminDeleteComment (commentId : Z)
| GetPost (postId : Z)
| ToggleLike (requester : User) (postId : Z) (now : Z)
| DeletePost (requester : User) (postId : Z)
| AdminDeletePost (postId : Z)
| AdminDeleteUser (requester : User) (userId : Z)
| AdminUpdatePostStatus (postId : Z) (new_status : string).

Definition handle (r : Request) (st : Store) : Store * Response :=
  match r with
  | AddComment u content post_id parent_id now =>
      Comments.add_comment u content post_id parent_id now st
  | UpdateComment u id content => Comments.update_comment u id content st
  | DeleteComment u id => Comments.delete_comment u id st
  | AdminDeleteComment id => Admin.delete_comment id st
  | GetPost id => Posts.get_post id st
  | ToggleLike u id now => Posts.toggle_like u id now st
  | DeletePost u id => Posts.delete_post u id st
  | AdminDeletePost id => Admin.delete_post id st
  | AdminDeleteUser u id => Admin.delete_user u id st
  | AdminUpdatePostStatus id s => Admin.update_post_status id s st
  end.

(** The store after a sequence of requests, in order. *)
Definition run (rs : list Request) (st : Store) : Store :=
  fold_left (fun s r => fst (handle r s)) rs st.

(* ================================================================== *)
(** ** Predicates of the specification *)
(* ================================================================== *)

(** No cross-post nesting: a parent id refers to a comment of the same post. *)
Definition same_post_parents (cs : list Comment) : Prop :=
  forall c p, In c cs -> c_parent_id c = Some p ->
    exists q, In q cs /\ c_id q = p /\ c_post_id q = c_post_id c.

Definition parents_in_same_post (st : Store) : Prop :=
  same_post_parents (comments st).

(** Its boolean test. *)
Definition same_post_parentsb (cs : list Comment) : bool :=
  forallb (fun c =>
             match c_parent_id c with
             | Some p =>
                 existsb (fun q => (c_id q =? p) && (c_post_id q =? c_post_id c)) cs
             | None => true
             end) cs.

(** The user currently likes the post. *)
Definition liked (st : Store) (user_id post_id : Z) : bool :=
  existsb (fun l => (l_user_id l =? user_id) && (l_post_id l =? post_id)) (likes st).

(** The counters of the post with this id (of the first such row). *)
Definition post_likes (st : Store) (post_id : Z) : option Z :=
  option_map p_likes (find (fun p => p_id p =? post_id) (posts st)).

Definition post_views (st : Store) (post_id : Z) : option Z :=
  option_map p_views (find (fun p => p_id p =? post_id) (posts st)).

(** The rows a DELETE with WHERE clause [sel] takes out of [cs]: the selected
    ones and, through the foreign key on [parent_id], every row below one. *)
Inductive cascades (sel : Comment -> bool) (cs : list Comment) : Comment -> Prop :=
| cascades_selected c :
    In c cs -> sel c = true -> cascades sel cs c
| cascades_reply c x :
    In c cs -> cascades sel cs x -> c_parent_id c = Some (c_id x) ->
    cascades sel cs c.

(** The store after the INSERT of POST /posts/:id/like. *)
Definition with_new_like (st : Store) (requester : User) (post_id now : Z) : Store :=
  mkStore (users st) (posts st) (comments st)
    (likes st
     ++ [mkLike (Sql.auto_increment (next_like_id st) (map l_id (likes st)))
           (u_id requester) post_id now])
    (next_comment_id st)
    (Sql.auto_increment (next_like_id st) (map l_id (likes st)) + 1).

(** The store after a successful INSERT of POST /comments. *)
Definition with_new_comment (st : Store) (row : Comment) : Store :=
  mkStore (users st) (posts st) (comments st ++ [row]) (likes st)
    (c_id row + 1) (next_like_id st).


(* ================================================================== *)
(** ** Further handlers of the route files *)
(* ================================================================== *)






Module CommentLists.





End CommentLists.

Module PostLists.







Section Search.

(** The LIKE operator of the store, pattern first. *)
Variable like : string -> string -> bool.






End Search.

End PostLists.

Module PostWrites.

(** The validation chain of PUT /posts/:id; a missing field is the empty
    string. *)
Definition update_post_errors (title content new_status : string) : list string :=
  (if (title =? EmptyString)%string then ["Title is required"] else [])
  ++ (if (content =? EmptyString)%string then ["Content is required"] else [])
  ++ (if (new_status =? "draft")%string || (new_status =? "published")%string
      then [] else ["Invalid status"]).

Definition status_of (new_status : string) : Status :=
  if (new_status =? "published")%string then published else draft.

(** [SET title = ?, content = ?, ..., status = ?] on the modelled columns. *)
Definition edit_post (title content : string) (s : Status) (p : Post) : Post :=
  mkPost (p_id p) title content (p_author_id p) s (p_views p) (p_likes p)
    (p_created_at p).

(** PUT /posts/:id, behind [auth]; the effect on the store and the answer do
    not depend on the uploaded image. *)
Definition update_post (requester : User) (postId : Z)
    (title content new_status : string) (st : Store) : Store * Response :=
  match update_post_errors title content new_status with
  | (_ :: _) as errs => (st, mkResponse 400 (ValidationErrors errs))
  | [] =>
      (* Check if user owns the post or is admin *)
      match filter (fun p => (p_id p =? postId)
                             && ((p_author_id p =? u_id requester)
                                 || Role_eqb (u_role requester) admin))
              (posts st) with
      | [] => (st, mkResponse 404 (Message "Post not found or access denied"))
      | _ :: _ =>
          (Sql.update_post postId (edit_post title content (status_of new_status)) st,
           mkResponse 200 (Message "Post updated successfully"))
      end
  end.

End PostWrites.

Module AdminWrites.

Definition set_role (r : Role) (u : User) : User :=
  mkUser (u_id u) (u_username u) (u_full_name u) (u_avatar u) r (u_bio u)
    (u_created_at u).

(** UPDATE users SET role = ? WHERE id = ? *)
Definition update_role (id : Z) (r : Role) (st : Store) : Store :=
  mkStore (map (fun u => if u_id u =? id then set_role r u else u) (users st))
    (posts st) (comments st) (likes st) (next_comment_id st) (next_like_id st).

(** PUT /admin/users/:id/role, behind [adminAuth]. *)
Definition update_user_role (requester : User) (userId : Z) (new_role : string)
    (st : Store) : Store * Response :=
  match (if (new_role =? "user")%string then Some user
         else if (new_role =? "admin")%string then Some admin
         else None) with
  | None => (st, mkResponse 400 (ValidationErrors ["Invalid role"]))
  | Some r =>
      (* Prevent admin from removing their own admin role *)
      if (userId =? u_id requester) && Role_eqb r user
      then (st, mkResponse 400 (Message "Cannot remove your own admin role"))
      else (update_role userId r st,
            mkResponse 200 (Message "User role updated successfully"))
  end.

End AdminWrites.

(** Every modelled write: the requests above and the two further ones. *)
Inductive Write : Type :=
| Handled (r : Request)
| UpdatePost (requester : User) (postId : Z) (title content new_status : string)
| AdminUpdateUserRole (requester : User) (userId : Z) (new_role : string).

Definition perform (w : Write) (st : Store) : Store * Response :=
  match w with
  | Handled r => handle r st
  | UpdatePost u id title content s => PostWrites.update_post u id title content s st
  | AdminUpdateUserRole u id r => AdminWrites.update_user_role u id r st
  end.

Definition perform_all (ws : list Write) (st : Store) : Store :=
  fold_left (fun s w => fst (perform w s)) ws st.

(* ================================================================== *)
(** ** Further predicates *)
(* ================================================================== *)

(** Referential integrity, as the foreign keys of the schema state it. *)
Definition references_ok (st : Store) : Prop :=
  (forall p, In p (posts st) -> Sql.has_user st (p_author_id p) = true)
  /\ (forall c, In c (comments st) ->
        Sql.has_post st (c_post_id c) = true
        /\ Sql.has_user st (c_user_id c) = true
        /\ forall q, c_parent_id c = Some q -> Sql.has_comment st q = true)
  /\ (forall l, In l (likes st) ->
        Sql.has_user st (l_user_id l) = true
        /\ Sql.has_post st (l_post_id l) = true).

Definition references_okb (st : Store) : bool :=
  forallb (fun p => Sql.has_user st (p_author_id p)) (posts st)
  && forallb (fun c => Sql.has_post st (c_post_id c)
                       && Sql.has_user st (c_user_id c)
                       && match c_parent_id c with
                          | Some q => Sql.has_comment st q
                          | None => true
                          end) (comments st)
  && forallb (fun l => Sql.has_user st (l_user_id l)
                       && Sql.has_post st (l_post_id l)) (likes st).

(** The number of Like rows of a post. *)
Definition like_count (st : Store) (post_id : Z) : Z :=
  Z.of_nat (List.length (filter (fun l => l_post_id l =? post_id) (likes st))).

(** The [likes] counter of every post is the number of its Like rows. *)
Definition likes_counted (st : Store) : Prop :=
  forall p, In p (posts st) -> p_likes p = like_count st (p_id p).

(** UNIQUE KEY unique_like (user_id, post_id) *)
Definition one_like_each (st : Store) : Prop :=
  NoDup (map (fun l => (l_user_id l, l_post_id l)) (likes st)).

(** PRIMARY KEY of users. *)
Definition unique_user_ids (st : Store) : Prop :=
  NoDup (map u_id (users st)).


(* ================================================================== *)
(** ** Sample data *)
(* ================================================================== *)

Module Sample.

Definition alice : User := mkUser 1 "alice" (Some "Alice A") None user None 100.
Definition bob : User := mkUser 2 "bob" None None user None 101.
Definition root : User := mkUser 3 "admin" (Some "Administrator") None admin None 0.

Definition hello_post : Post := mkPost 1 "Hello" "First post" 1 published 7 0 110.
Definition draft_post : Post := mkPost 2 "Notes" "Unfinished" 1 draft 0 0 120.
Definition other_post : Post := mkPost 3 "Other" "Second post" 2 published 0 0 125.

(** A top-level comment, a reply to it, and a reply to that reply. *)
Definition c1 : Comment := mkComment 1 "hello" 1 1 None 130.
Definition c2 : Comment := mkComment 2 "reply" 1 2 (Some 1) 131.
Definition c3 : Comment := mkComment 3 "reply to reply" 1 1 (Some 2) 132.

(** Users and posts only. *)
Definition blog : Store :=
  mkStore [alice; bob; root] [hello_post; draft_post; other_post] [] [] 1 1.

(** The blog with the three-comment thread on the first post. *)
Definition thread : Store :=
  mkStore [alice; bob; root] [hello_post; draft_post; other_post]
    [c1; c2; c3] [] 4 1.

End Sample.

Module Sample2.

Definition liked_post : Post := mkPost 1 "Hello" "First post" 1 published 7 2 110.
Definition like_of_bob : Like := mkLike 1 2 1 150.
Definition like_of_root : Like := mkLike 2 3 1 151.

(** The thread of [Sample] with two likes on the first post. *)
Definition liked_thread : Store :=
  mkStore [Sample.alice; Sample.bob; Sample.root]
    [liked_post; Sample.draft_post; Sample.other_post]
    [Sample.c1; Sample.c2; Sample.c3] [like_of_bob; like_of_root] 4 3.

End Sample2.

(* ================================================================== *)
(** ** Facts about the store operations *)
(* ================================================================== *)

Module SqlFacts.
Import Sql.

Lemma mem_id_In ids id : mem_id ids id = true <-> In id ids.
Proof.
  unfold mem_id. rewrite existsb_exists. split.
  - intros [x [Hx He]]. apply Z.eqb_eq in He. now subst.
  - intros H. exists id. split; [assumption | apply Z.eqb_refl].
Qed.

Lemma parent_among_true dead c :
  parent_among dead c = true <->
  exists p, c_parent_id c = Some p /\ In p dead.
Proof.
  unfold parent_among. destruct (c_parent_id c) as [p|].
  - rewrite mem_id_In. split.
    + intros H. now exists p.
    + intros [q [Hq Hin]]. now inversion Hq; subst.
  - split; [discriminate | intros [q [Hq _]]; discriminate].
Qed.

Lemma max_id_ge ids id : In id ids -> id <= max_id ids.
Proof.
  induction ids as [| a l IH]; intros Hin; [destruct Hin |].
  cbn [max_id fold_right]. fold (max_id l). destruct Hin as [-> | Hin].
  - apply Z.le_max_l.
  - specialize (IH Hin). lia.
Qed.

(** The generated id is not in use. *)
Lemma auto_increment_fresh counter ids id :
  In id ids -> id < auto_increment counter ids.
Proof.
  intros Hin. apply max_id_ge in Hin. unfold auto_increment. lia.
Qed.

Lemma has_comment_auto_increment st :
  has_comment st (auto_increment (next_comment_id st) (map c_id (comments st)))
  = false.
Proof.
  unfold has_comment. apply not_true_iff_false. intros H.
  apply existsb_exists in H. destruct H as [c [Hc Hid]].
  apply Z.eqb_eq in Hid.
  pose proof (auto_increment_fresh (next_comment_id st) (map c_id (comments st))
                (c_id c) (in_map c_id _ _ Hc)).
  lia.
Qed.

Section Split.
Variable sel : Comment -> bool.
Variable cs : list Comment.

Local Abbreviation gone := (filter sel cs).
Local Abbreviation kept := (filter (fun c => negb (sel c)) cs).

Lemma kept_In c : In c kept <-> In c cs /\ sel c = false.
Proof.
  rewrite filter_In, negb_true_iff. tauto.
Qed.

(** A row that goes is selected itself, or goes in a later round. *)
Lemma cascades_round c :
  cascades sel cs c ->
  sel c = true
  \/ (In c kept /\ cascades (parent_among (map c_id gone)) kept c).
Proof.
  induction 1 as [c Hin Hsel | c x Hin Hx IH Hpar].
  - now left.
  - destruct (sel c) eqn:Hc; [now left | right].
    assert (Hk : In c kept) by (apply kept_In; now split).
    split; [exact Hk |].
    destruct IH as [Hsx | [Hkx Hcx]].
    + apply cascades_selected; [exact Hk |].
      apply parent_among_true. exists (c_id x). split; [exact Hpar |].
      apply in_map. apply filter_In. split; [| exact Hsx].
      clear - Hx. now destruct Hx.
    + now apply cascades_reply with x.
Qed.

Lemma cascades_later c :
  cascades (parent_among (map c_id gone)) kept c -> cascades sel cs c.
Proof.
  induction 1 as [c Hin Hsel | c x Hin Hx IH Hpar].
  - apply parent_among_true in Hsel. destruct Hsel as [p [Hp Hd]].
    apply in_map_iff in Hd. destruct Hd as [x [Hid Hx]].
    apply filter_In in Hx. destruct Hx as [Hxin Hxsel].
    apply cascades_reply with x.
    + now apply kept_In in Hin.
    + now apply cascades_selected.
    + now rewrite Hid.
  - apply cascades_reply with x; [| exact IH | exact Hpar].
    now apply kept_In in Hin.
Qed.

Lemma survivors_split c :
  In c cs /\ ~ cascades sel cs c <->
  In c kept /\ ~ cascades (parent_among (map c_id gone)) kept c.
Proof.
  split.
  - intros [Hin Hn]. assert (Hs : sel c = false).
    { destruct (sel c) eqn:E; [| reflexivity].
      exfalso. apply Hn. now apply cascades_selected. }
    split; [apply kept_In; now split |].
    intros Hc. apply Hn. now apply cascades_later.
  - intros [Hk Hn]. pose proof Hk as Hk'. apply kept_In in Hk'.
    destruct Hk' as [Hin Hs]. split; [exact Hin |].
    intros Hc. apply cascades_round in Hc.
    destruct Hc as [Ht | [_ Hc]]; [congruence | now apply Hn].
Qed.
End Split.

Lemma cascades_none sel cs c :
  filter sel cs = [] -> ~ cascades sel cs c.
Proof.
  intros Hnil. induction 1 as [c Hin Hsel | c x Hin Hx IH Hpar].
  - assert (H : In c (filter sel cs)) by (apply filter_In; now split).
    rewrite Hnil in H. exact H.
  - exact IH.
Qed.

(** With enough fuel the rounds compute exactly the rows that stay. *)
Lemma cascade_replies_spec fuel :
  forall dead cs, (List.length cs <= fuel)%nat ->
  forall c, In c (cascade_replies fuel dead cs) <->
            In c cs /\ ~ cascades (parent_among dead) cs c.
Proof.
  induction fuel as [| f IH]; intros dead cs Hlen c.
  - destruct cs; [| simpl in Hlen; lia]. simpl. tauto.
  - cbn [cascade_replies].
    destruct (filter (parent_among dead) cs) as [| g gs] eqn:Hg.
    + split; [| tauto]. intros Hin. split; [exact Hin |].
      now apply cascades_none.
    + rewrite <- Hg. rewrite survivors_split. apply IH.
      pose proof (filter_length (parent_among dead) cs) as Hl.
      rewrite Hg in Hl. simpl in Hl. lia.
Qed.

(** DELETE FROM comments WHERE [sel] leaves exactly the rows that are
    neither selected nor below a removed row. *)
Lemma delete_from_comments_spec sel cs c :
  In c (delete_from_comments sel cs) <-> In c cs /\ ~ cascades sel cs c.
Proof.
  unfold delete_from_comments. rewrite cascade_replies_spec by lia.
  symmetry. apply survivors_split.
Qed.

Lemma delete_from_comments_incl sel cs c :
  In c (delete_from_comments sel cs) -> In c cs.
Proof. intros H. now apply delete_from_comments_spec in H. Qed.

Lemma delete_from_comments_not_selected sel cs c :
  In c (delete_from_comments sel cs) -> sel c = false.
Proof.
  intros H. apply delete_from_comments_spec in H. destruct H as [Hin Hn].
  destruct (sel c) eqn:E; [| reflexivity].
  exfalso. apply Hn. now apply cascades_selected.
Qed.

(** No row that stays refers to a row that went. *)
Lemma delete_from_comments_closed sel cs c x :
  In c (delete_from_comments sel cs) -> In x cs ->
  ~ In x (delete_from_comments sel cs) ->
  c_parent_id c <> Some (c_id x).
Proof.
  intros Hc Hx Hnx Hpar.
  apply delete_from_comments_spec in Hc. destruct Hc as [Hin Hn].
  apply Hnx. apply delete_from_comments_spec. split; [exact Hx |].
  intros Hcx. apply Hn. now apply cascades_reply with x.
Qed.

(** A DELETE whose WHERE clause selects no row changes nothing. *)
Lemma delete_from_comments_nothing sel cs :
  filter sel cs = [] -> delete_from_comments sel cs = cs.
Proof.
  intros Hnil. unfold delete_from_comments. rewrite Hnil. simpl.
  assert (Hk : filter (fun c => negb (sel c)) cs = cs).
  { apply forallb_filter_id. apply forallb_forall. intros c Hc.
    destruct (sel c) eqn:E; [| reflexivity].
    assert (H : In c (filter sel cs)) by (apply filter_In; now split).
    rewrite Hnil in H. destruct H. }
  rewrite Hk. destruct (List.length cs) as [| n]; [reflexivity |].
  cbn [cascade_replies map].
  assert (Hf : filter (parent_among []) cs = []).
  { clear. induction cs as [| a l IHl]; [reflexivity |].
    cbn [filter]. unfold parent_among at 1.
    destruct (c_parent_id a); exact IHl. }
  now rewrite Hf.
Qed.

End SqlFacts.

(* ================================================================== *)
(** ** Deleting comments *)
(* ================================================================== *)

Lemma id_or_parent_is_true id c :
  id_or_parent_is id c = true <-> c_id c = id \/ c_parent_id c = Some id.
Proof.
  unfold id_or_parent_is, sql_eq. rewrite orb_true_iff, Z.eqb_eq.
  destruct (c_parent_id c) as [p |].
  - rewrite Z.eqb_eq. split; intros [H | H]; auto.
    + right. now subst.
    + right. now inversion H.
  - split; intros [H | H]; auto; discriminate.
Qed.

Lemma id_or_parent_is_false id c :
  id_or_parent_is id c = false <-> c_id c <> id /\ c_parent_id c <> Some id.
Proof.
  rewrite <- not_true_iff_false, id_or_parent_is_true. tauto.
Qed.

Lemma filter_nonempty {A : Type} (f : A -> bool) (l : list A) (x : A) :
  In x l -> f x = true -> exists y r, filter f l = y :: r.
Proof.
  intros Hin Hf. destruct (filter f l) as [| y r] eqn:E.
  - assert (H : In x (filter f l)) by (apply filter_In; now split).
    rewrite E in H. destruct H.
  - now exists y, r.
Qed.

(** The ownership check of DELETE /comments/:id: the SELECT finds a row exactly
    when a comment with that id is the requester's or the requester is admin. *)
Lemma delete_comment_authorized requester commentId st c :
  In c (comments st) -> c_id c = commentId ->
  c_user_id c = u_id requester \/ u_role requester = admin ->
  Comments.delete_comment requester commentId st =
  (Sql.delete_comments_where (id_or_parent_is commentId) st,
   mkResponse 200 (Message "Comment deleted successfully")).
Proof.
  intros Hin Hid Hauth. unfold Comments.delete_comment.
  destruct (filter_nonempty
              (fun c => (c_id c =? commentId)
                        && ((c_user_id c =? u_id requester)
                            || Role_eqb (u_role requester) admin))
              (comments st) c Hin) as [y [r Hf]].
  - apply andb_true_iff. split; [now apply Z.eqb_eq |].
    apply orb_true_iff. destruct Hauth as [Hu | Hr].
    + left. now apply Z.eqb_eq.
    + right. now rewrite Hr.
  - now rewrite Hf.
Qed.

(** Without such a row the handler answers 404 and issues no DELETE. *)
Lemma delete_comment_denied requester commentId st :
  (forall c, In c (comments st) -> c_id c = commentId ->
             c_user_id c <> u_id requester /\ u_role requester <> admin) ->
  Comments.delete_comment requester commentId st =
  (st, mkResponse 404 (Message "Comment not found or access denied")).
Proof.
  intros Hno. unfold Comments.delete_comment.
  destruct (filter _ (comments st)) as [| y r] eqn:E; [reflexivity |].
  assert (Hy : In y (y :: r)) by now left.
  rewrite <- E in Hy. apply filter_In in Hy. destruct Hy as [Hin Hy].
  apply andb_true_iff in Hy. destruct Hy as [Hid Hy].
  apply Z.eqb_eq in Hid. destruct (Hno y Hin Hid) as [Hu Hr].
  apply orb_true_iff in Hy. destruct Hy as [Hy | Hy].
  - apply Z.eqb_eq in Hy. contradiction.
  - destruct (u_role requester); [discriminate | now elim Hr].
Qed.

(** C1. An authorized delete of comment C (the requester is C's author or an
    admin) answers 200 and removes, in the one DELETE statement, C and every
    comment whose parent_id is C's id: afterwards no comment has C's id or
    refers to it as parent, and nothing was added. *)
Theorem delete_comment_cascade_complete requester commentId st c :
  In c (comments st) -> c_id c = commentId ->
  c_user_id c = u_id requester \/ u_role requester = admin ->
  let st' := fst (Comments.delete_comment requester commentId st) in
  snd (Comments.delete_comment requester commentId st)
  = mkResponse 200 (Message "Comment deleted successfully")
  /\ ~ In c (comments st')
  /\ (forall x, In x (comments st) -> c_parent_id x = Some commentId ->
                ~ In x (comments st'))
  /\ (forall x, In x (comments st') ->
                c_id x <> commentId /\ c_parent_id x <> Some commentId)
  /\ (forall x, In x (comments st') -> In x (comments st)).
Proof.
  intros Hin Hid Hauth st'. subst st'.
  rewrite (delete_comment_authorized requester commentId st c Hin Hid Hauth).
  cbn [fst snd Sql.delete_comments_where comments].
  assert (Hgone : forall x, In x (Sql.delete_from_comments
                                    (id_or_parent_is commentId) (comments st)) ->
                            c_id x <> commentId /\ c_parent_id x <> Some commentId).
  { intros x Hx. apply id_or_parent_is_false.
    now apply SqlFacts.delete_from_comments_not_selected in Hx. }
  split; [reflexivity |]. split; [| split; [| split]].
  - intros Hc. now apply Hgone in Hc.
  - intros x _ Hpar Hx. apply Hgone in Hx. tauto.
  - exact Hgone.
  - intros x. apply SqlFacts.delete_from_comments_incl.
Qed.

Lemma delete_comment_cascade_complete_witness :
  let st' := fst (Comments.delete_comment Sample.bob 2 Sample.thread) in
  snd (Comments.delete_comment Sample.bob 2 Sample.thread)
  = mkResponse 200 (Message "Comment deleted successfully")
  /\ ~ In Sample.c2 (comments st')
  /\ (forall x, In x (comments Sample.thread) -> c_parent_id x = Some 2 ->
                ~ In x (comments st'))
  /\ (forall x, In x (comments st') -> c_id x <> 2 /\ c_parent_id x <> Some 2)
  /\ (forall x, In x (comments st') -> In x (comments Sample.thread)).
Proof.
  apply (delete_comment_cascade_complete Sample.bob 2 Sample.thread Sample.c2).
  - simpl. right. left. reflexivity.
  - reflexivity.
  - left. reflexivity.
Defined.

(** C10. DELETE /admin/comments/:id makes no existence check: for every id it
    issues the cascading DELETE and answers 200 with the success message,
    never 404; when no comment has that id or that parent the store is left
    as it was. *)
Theorem admin_delete_comment_no_existence_check commentId st :
  snd (Admin.delete_comment commentId st)
  = mkResponse 200 (Message "Comment deleted successfully")
  /\ status (snd (Admin.delete_comment commentId st)) <> 404
  /\ (forall x, In x (comments (fst (Admin.delete_comment commentId st))) ->
                In x (comments st)
                /\ c_id x <> commentId /\ c_parent_id x <> Some commentId)
  /\ ((forall x, In x (comments st) ->
                 c_id x <> commentId /\ c_parent_id x <> Some commentId) ->
      fst (Admin.delete_comment commentId st) = st).
Proof.
  unfold Admin.delete_comment. cbn [fst snd status].
  split; [reflexivity |]. split; [discriminate |]. split.
  - cbn [Sql.delete_comments_where comments]. intros x Hx. split.
    + now apply SqlFacts.delete_from_comments_incl in Hx.
    + apply id_or_parent_is_false.
      now apply SqlFacts.delete_from_comments_not_selected in Hx.
  - intros Hno. unfold Sql.delete_comments_where.
    rewrite SqlFacts.delete_from_comments_nothing.
    + now destruct st.
    + destruct (filter (id_or_parent_is commentId) (comments st))
        as [| y r] eqn:E; [reflexivity |].
      assert (Hy : In y (y :: r)) by now left.
      rewrite <- E in Hy. apply filter_In in Hy. destruct Hy as [Hin Hy].
      apply id_or_parent_is_true in Hy. apply Hno in Hin. tauto.
Qed.

Lemma admin_delete_comment_no_existence_check_witness :
  snd (Admin.delete_comment 42 Sample.thread)
  = mkResponse 200 (Message "Comment deleted successfully")
  /\ fst (Admin.delete_comment 42 Sample.thread) = Sample.thread.
Proof.
  destruct (admin_delete_comment_no_existence_check 42 Sample.thread)
    as [Hr [_ [_ Hsame]]].
  split; [exact Hr |]. apply Hsame.
  intros x Hx. simpl in Hx.
  destruct Hx as [Hx | [Hx | [Hx | []]]]; subst x; simpl;
    split; discriminate.
Defined.

(** The thread of the sample store loses the reply to the reply together with
    the reply it hangs under, whichever delete endpoint is used. *)
Lemma reply_to_reply_is_deleted :
  In Sample.c2 (comments Sample.thread)
  /\ c_parent_id Sample.c2 = Some (c_id Sample.c1)
  /\ In Sample.c3 (comments Sample.thread)
  /\ c_parent_id Sample.c3 = Some (c_id Sample.c2)
  /\ status (snd (Comments.delete_comment Sample.alice 1 Sample.thread)) = 200
  /\ ~ In Sample.c3
       (comments (fst (Comments.delete_comment Sample.alice 1 Sample.thread)))
  /\ ~ In Sample.c3 (comments (fst (Admin.delete_comment 1 Sample.thread))).
Proof.
  repeat split; try reflexivity.
  - simpl. auto.
  - simpl. auto.
  - vm_compute. intros H. exact H.
  - vm_compute. intros H. exact H.
Qed.

(** The rows left by the DELETE of either endpoint. *)
Lemma delete_where_id_or_parent_spec commentId st x :
  In x (comments (Sql.delete_comments_where (id_or_parent_is commentId) st)) <->
  In x (comments st) /\ ~ cascades (id_or_parent_is commentId) (comments st) x.
Proof. apply SqlFacts.delete_from_comments_spec. Qed.

(** C9, as the code has it.  The WHERE clause of the DELETE selects C and the
    comments whose parent_id is C's id, and a reply G to such a reply R is not
    selected by it; G is removed all the same, by the ON DELETE CASCADE
    foreign key on parent_id, with both delete endpoints.  What stays is what
    was neither selected nor below a removed comment, so no remaining comment
    refers to a removed one. *)
Theorem delete_comment_reaches_reply_to_reply requester commentId st c r g :
  In c (comments st) -> c_id c = commentId ->
  c_user_id c = u_id requester \/ u_role requester = admin ->
  In r (comments st) -> c_parent_id r = Some commentId ->
  In g (comments st) -> c_parent_id g = Some (c_id r) ->
  let st' := fst (Comments.delete_comment requester commentId st) in
  let st_admin := fst (Admin.delete_comment commentId st) in
  (c_id g <> commentId -> c_id r <> commentId ->
   id_or_parent_is commentId g = false)
  /\ ~ In r (comments st') /\ ~ In g (comments st')
  /\ ~ In r (comments st_admin) /\ ~ In g (comments st_admin)
  /\ (forall x, In x (comments st') <->
                In x (comments st)
                /\ ~ cascades (id_or_parent_is commentId) (comments st) x)
  /\ (forall x y, In x (comments st') -> In y (comments st) ->
                  ~ In y (comments st') -> c_parent_id x <> Some (c_id y)).
Proof.
  intros Hc Hid Hauth Hr Hrp Hg Hgp st' st_admin. subst st' st_admin.
  rewrite (delete_comment_authorized requester commentId st c Hc Hid Hauth).
  unfold Admin.delete_comment. cbn [fst].
  assert (Hcr : cascades (id_or_parent_is commentId) (comments st) r).
  { apply cascades_selected; [exact Hr |].
    apply id_or_parent_is_true. now right. }
  assert (Hcg : cascades (id_or_parent_is commentId) (comments st) g)
    by now apply cascades_reply with r.
  split; [| split; [| split; [| split; [| split; [| split]]]]].
  - intros Hgi Hri. apply id_or_parent_is_false. split; [exact Hgi |].
    rewrite Hgp. intros H. inversion H. contradiction.
  - intros H. apply delete_where_id_or_parent_spec in H. tauto.
  - intros H. apply delete_where_id_or_parent_spec in H. tauto.
  - intros H. apply delete_where_id_or_parent_spec in H. tauto.
  - intros H. apply delete_where_id_or_parent_spec in H. tauto.
  - intros x. apply delete_where_id_or_parent_spec.
  - intros x y. cbn [Sql.delete_comments_where comments].
    apply SqlFacts.delete_from_comments_closed.
Qed.

Lemma delete_comment_reaches_reply_to_reply_witness :
  ~ In Sample.c3
      (comments (fst (Comments.delete_comment Sample.alice 1 Sample.thread)))
  /\ ~ In Sample.c3 (comments (fst (Admin.delete_comment 1 Sample.thread))).
Proof.
  destruct (delete_comment_reaches_reply_to_reply Sample.alice 1 Sample.thread
              Sample.c1 Sample.c2 Sample.c3) as [_ [_ [H1 [_ [H2 _]]]]].
  - simpl. left. reflexivity.
  - reflexivity.
  - left. reflexivity.
  - simpl. right. left. reflexivity.
  - reflexivity.
  - simpl. right. right. left. reflexivity.
  - reflexivity.
  - split; [exact H1 | exact H2].
Defined.

(* ================================================================== *)
(** ** Creating comments *)
(* ================================================================== *)

Lemma sql_eq_true col v : sql_eq col v = true <-> v = Some col.
Proof.
  unfold sql_eq. destruct v as [z |].
  - rewrite Z.eqb_eq. split; intros H; [now subst | now inversion H].
  - split; discriminate.
Qed.

Lemma filter_cons_In {A : Type} (f : A -> bool) (l : list A) (y : A) (r : list A) :
  filter f l = y :: r -> In y l /\ f y = true.
Proof.
  intros E. apply filter_In. rewrite E. now left.
Qed.

(** The two ways POST /comments can end: some check or the INSERT failed and
    the store is as before, or every check passed and one row was added. *)
Lemma add_comment_cases requester content post_id parent_id now st :
  (fst (Comments.add_comment requester content post_id parent_id now st) = st
   /\ In (status (snd (Comments.add_comment requester content post_id parent_id
                         now st))) [400; 404; 500])
  \/ (exists pid row,
        content <> EmptyString
        /\ JS.sql_int post_id = Some pid
        /\ (exists p, In p (posts st) /\ p_id p = pid /\ p_status p = published)
        /\ (JS.truthy parent_id = true ->
            exists q, In q (comments st)
                      /\ JS.sql_int parent_id = Some (c_id q)
                      /\ c_post_id q = pid)
        /\ row = mkComment
                   (Sql.auto_increment (next_comment_id st)
                      (map c_id (comments st)))
                   content pid (u_id requester)
                   (if JS.truthy parent_id then JS.sql_int parent_id else None) now
        /\ Sql.has_comment st (c_id row) = false
        /\ Sql.has_user st (u_id requester) = true
        /\ Comments.add_comment requester content post_id parent_id now st
           = (with_new_comment st row,
              mkResponse 201
                (CommentAdded "Comment added successfully"
                   (hd_error
                      (flat_map (Comments.join_user (with_new_comment st row))
                         (filter (fun c => c_id c =? c_id row)
                            (comments (with_new_comment st row)))))))).
Proof.
  unfold Comments.add_comment.
  destruct (Comments.add_comment_errors content post_id parent_id)
    as [| e errs] eqn:Herr.
  2:{ left. simpl. auto. }
  destruct (filter _ (posts st)) as [| p ps] eqn:Hp.
  { left. simpl. auto. }
  destruct (JS.truthy parent_id && _) eqn:Hpar.
  { left. simpl. auto. }
  unfold Sql.insert_comment.
  apply filter_cons_In in Hp. destruct Hp as [Hpin Hpok].
  apply andb_true_iff in Hpok. destruct Hpok as [Hpid Hpub].
  apply sql_eq_true in Hpid. rewrite Hpid.
  destruct (Sql.has_post st (p_id p)) eqn:Hhas; cbn [negb].
  2:{ left. simpl. auto. }
  destruct (Sql.has_user st (u_id requester)) eqn:Huser; cbn [negb].
  2:{ left. simpl. auto. }
  destruct (match (if JS.truthy parent_id then JS.sql_int parent_id else None) with
            | Some q => negb (Sql.has_comment st q)
            | None => false
            end) eqn:Hfk.
  { left. simpl. auto. }
  right. exists (p_id p).
  exists (mkComment
            (Sql.auto_increment (next_comment_id st) (map c_id (comments st)))
            content (p_id p) (u_id requester)
            (if JS.truthy parent_id then JS.sql_int parent_id else None) now).
  split.
  { intros ->. unfold Comments.add_comment_errors in Herr. simpl in Herr.
    discriminate. }
  split; [reflexivity |]. split.
  { exists p. split; [exact Hpin |]. split; [reflexivity |].
    now destruct (p_status p). }
  split.
  { intros Ht. rewrite Ht in Hpar. cbn [andb] in Hpar.
    destruct (filter _ (comments st)) as [| q qs] eqn:Hq; [discriminate |].
    apply filter_cons_In in Hq. destruct Hq as [Hqin Hqok].
    apply andb_true_iff in Hqok. destruct Hqok as [Hqid Hqpost].
    apply sql_eq_true in Hqid, Hqpost.
    exists q. split; [exact Hqin |]. split; [exact Hqid |]. congruence. }
  split; [reflexivity |].
  split; [apply SqlFacts.has_comment_auto_increment |].
  split; reflexivity.
Qed.

(* ================================================================== *)
(** ** No cross-post nesting *)
(* ================================================================== *)

Lemma same_post_parentsb_true cs :
  same_post_parentsb cs = true -> same_post_parents cs.
Proof.
  unfold same_post_parentsb, same_post_parents. intros H c p Hc Hp.
  rewrite forallb_forall in H. specialize (H c Hc). rewrite Hp in H.
  apply existsb_exists in H. destruct H as [q [Hq Hok]].
  apply andb_true_iff in Hok. destruct Hok as [Hid Hpost].
  apply Z.eqb_eq in Hid, Hpost. now exists q.
Qed.

Lemma same_post_parents_delete sel cs :
  same_post_parents cs -> same_post_parents (Sql.delete_from_comments sel cs).
Proof.
  intros Hinv c p Hc Hp.
  pose proof Hc as Hc'. apply SqlFacts.delete_from_comments_spec in Hc'.
  destruct Hc' as [Hin Hstay].
  destruct (Hinv c p Hin Hp) as [q [Hq [Hid Hpost]]].
  exists q. split; [| now split].
  apply SqlFacts.delete_from_comments_spec. split; [exact Hq |].
  intros Hgo. apply Hstay. apply cascades_reply with q; [exact Hin | exact Hgo |].
  now rewrite Hid.
Qed.

Lemma same_post_parents_update id content cs :
  same_post_parents cs ->
  same_post_parents
    (map (fun c => if c_id c =? id
                   then mkComment (c_id c) content (c_post_id c) (c_user_id c)
                          (c_parent_id c) (c_created_at c)
                   else c) cs).
Proof.
  intros Hinv c' p Hc' Hp.
  apply in_map_iff in Hc'. destruct Hc' as [c [Hc' Hc]].
  assert (Hsame : c_id c' = c_id c /\ c_post_id c' = c_post_id c
                  /\ c_parent_id c' = c_parent_id c).
  { destruct (c_id c =? id); subst c'; simpl; auto. }
  destruct Hsame as [_ [Hpost Hpar]]. rewrite Hpar in Hp.
  destruct (Hinv c p Hc Hp) as [q [Hq [Hid Hqpost]]].
  exists (if c_id q =? id
          then mkComment (c_id q) content (c_post_id q) (c_user_id q)
                 (c_parent_id q) (c_created_at q)
          else q).
  split.
  - apply in_map_iff. now exists q.
  - destruct (c_id q =? id); simpl; split; congruence.
Qed.

Lemma same_post_parents_insert cs row :
  same_post_parents cs ->
  (forall p, c_parent_id row = Some p ->
             exists q, In q cs /\ c_id q = p /\ c_post_id q = c_post_id row) ->
  same_post_parents (cs ++ [row]).
Proof.
  intros Hinv Hrow c p Hc Hp. apply in_app_iff in Hc.
  destruct Hc as [Hc | [Hc | []]].
  - destruct (Hinv c p Hc Hp) as [q [Hq Hok]].
    exists q. split; [apply in_app_iff; now left | exact Hok].
  - subst c. destruct (Hrow p Hp) as [q [Hq Hok]].
    exists q. split; [apply in_app_iff; now left | exact Hok].
Qed.

Lemma add_comment_keeps_same_post requester content post_id parent_id now st :
  parents_in_same_post st ->
  parents_in_same_post
    (fst (Comments.add_comment requester content post_id parent_id now st)).
Proof.
  intros Hinv.
  destruct (add_comment_cases requester content post_id parent_id now st)
    as [[Hsame _] | [pid [row [_ [_ [_ [Hpar [Hrow [_ [_ Heq]]]]]]]]]].
  - now rewrite Hsame.
  - rewrite Heq. cbn [fst]. unfold parents_in_same_post, with_new_comment.
    cbn [comments]. apply same_post_parents_insert; [exact Hinv |].
    intros p Hp. subst row. cbn [c_parent_id c_post_id] in *.
    destruct (JS.truthy parent_id); [| discriminate].
    destruct (Hpar eq_refl) as [q [Hq [Hid Hpost]]].
    exists q. split; [exact Hq |]. split; [congruence | exact Hpost].
Qed.

(** The comments table after a DELETE on comments, posts or users. *)
Ltac comments_after_delete :=
  cbn [fst];
  unfold parents_in_same_post, Sql.delete_comments_where,
    Sql.delete_posts_where, Sql.delete_users_where;
  cbn [comments]; now apply same_post_parents_delete.

(** One request keeps the invariant. *)
Lemma handle_same_post_step r st :
  parents_in_same_post st -> parents_in_same_post (fst (handle r st)).
Proof.
  intros Hinv. destruct r; cbn [handle].
  - now apply add_comment_keeps_same_post.
  - unfold Comments.update_comment.
    destruct (content =? EmptyString)%string; [exact Hinv |].
    destruct (filter _ (comments st)); [exact Hinv |].
    cbn [fst]. unfold parents_in_same_post, Sql.update_comment_content.
    cbn [comments]. now apply same_post_parents_update.
  - unfold Comments.delete_comment.
    destruct (filter _ (comments st)); [exact Hinv | comments_after_delete].
  - unfold Admin.delete_comment. comments_after_delete.
  - unfold Posts.get_post.
    destruct (flat_map _ _); exact Hinv.
  - unfold Posts.toggle_like.
    destruct (filter _ (likes st)); [| exact Hinv].
    unfold Sql.insert_like.
    repeat match goal with
           | |- context [if ?b then _ else _] => destruct b
           end; exact Hinv.
  - unfold Posts.delete_post.
    destruct (filter _ (posts st)); [exact Hinv | comments_after_delete].
  - unfold Admin.delete_post. comments_after_delete.
  - unfold Admin.delete_user.
    destruct (userId =? u_id requester); [exact Hinv | comments_after_delete].
  - unfold Admin.update_post_status.
    destruct (if (new_status =? "draft")%string then _ else _); exact Hinv.
Qed.

Lemma run_same_post rs :
  forall st, parents_in_same_post st -> parents_in_same_post (run rs st).
Proof.
  unfold run. induction rs as [| r rs IH]; intros st Hinv; [exact Hinv |].
  cbn [fold_left]. apply IH. now apply handle_same_post_step.
Qed.

(** A store whose comments table is empty satisfies the invariant, hence so
    does every store reached from it. *)
Lemma run_from_no_comments rs st :
  comments st = [] -> parents_in_same_post (run rs st).
Proof.
  intros Hnil. apply run_same_post.
  intros c p Hc. rewrite Hnil in Hc. destruct Hc.
Qed.

(** A handler that leaves the comments table alone keeps the invariant: this
    covers the writes to users and posts of the handlers not listed in
    [Request]. *)
Lemma same_comments_same_post st st' :
  comments st' = comments st ->
  parents_in_same_post st -> parents_in_same_post st'.
Proof.
  unfold parents_in_same_post. intros ->. exact (fun H => H).
Qed.

(** C6. No cross-post nesting is an invariant of the store: when every
    parent_id refers to a comment of the same post, it still does after any
    request that writes to the store (creating, editing and deleting
    comments, the admin deletes of comments, posts and users, deleting a
    post, toggling a like, counting a view, changing a post's status), after
    any sequence of such requests, and after any other write that leaves the
    comments table as it is (the handlers that only write users or posts). *)
Theorem parents_in_same_post_preserved st :
  parents_in_same_post st ->
  (forall r, parents_in_same_post (fst (handle r st)))
  /\ (forall rs, parents_in_same_post (run rs st))
  /\ (forall st', comments st' = comments st -> parents_in_same_post st').
Proof.
  intros Hinv. split; [| split].
  - intros r. now apply handle_same_post_step.
  - intros rs. now apply run_same_post.
  - intros st' Hsame. now apply (same_comments_same_post st).
Qed.

Lemma parents_in_same_post_preserved_witness :
  parents_in_same_post
    (fst (handle (AddComment Sample.bob "me too" (JS.JStr "1") (JS.JNum 2) 140)
            Sample.thread))
  /\ parents_in_same_post
       (run [AddComment Sample.bob "me too" (JS.JStr "1") (JS.JNum 2) 140;
             DeleteComment Sample.bob 2;
             AdminDeleteUser Sample.root 1] Sample.thread).
Proof.
  assert (H : parents_in_same_post Sample.thread)
    by (apply same_post_parentsb_true; reflexivity).
  destruct (parents_in_same_post_preserved Sample.thread H) as [H1 [H2 _]].
  split; [apply H1 | apply H2].
Defined.

(* ================================================================== *)
(** ** POST /comments: checks and effect *)
(* ================================================================== *)

Lemma filter_none {A : Type} (f : A -> bool) (l : list A) :
  (forall x, In x l -> f x = false) -> filter f l = [].
Proof.
  intros H. induction l as [| a l IH]; [reflexivity |].
  cbn [filter]. rewrite (H a) by now left.
  apply IH. intros x Hx. apply H. now right.
Qed.

Lemma existsb_false_forall {A : Type} (f : A -> bool) (l : list A) :
  existsb f l = false -> forall x, In x l -> f x = false.
Proof.
  intros H x Hx. destruct (f x) eqn:E; [| reflexivity].
  assert (Ht : existsb f l = true) by (apply existsb_exists; now exists x).
  congruence.
Qed.





(* ================================================================== *)
(** ** PUT /comments/:id: ownership *)
(* ================================================================== *)

(** The validator runs before the ownership check: a non-author who sends an
    empty content gets 400, not 404. *)
Lemma update_by_non_author_empty_content :
  In Sample.c1 (comments Sample.thread)
  /\ c_id Sample.c1 = 1
  /\ c_user_id Sample.c1 <> u_id Sample.bob
  /\ snd (Comments.update_comment Sample.bob 1 EmptyString Sample.thread)
     = mkResponse 400 (ValidationErrors ["Comment content is required"])
  /\ status (snd (Comments.update_comment Sample.bob 1 EmptyString Sample.thread))
     <> 404.
Proof.
  split; [simpl; auto |]. split; [reflexivity |]. split; [discriminate |].
  split; [reflexivity | discriminate].
Qed.

Lemma update_comment_content_row id content st c' :
  In c' (comments (Sql.update_comment_content id content st)) ->
  c_id c' = id -> c_content c' = content.
Proof.
  unfold Sql.update_comment_content. cbn [comments]. intros Hin Hid.
  apply in_map_iff in Hin. destruct Hin as [c [Hc _]].
  destruct (c_id c =? id) eqn:E; subst c'.
  - reflexivity.
  - apply Z.eqb_neq in E. contradiction.
Qed.

(** C2, as the code has it.  For a requester who is not the author of the
    comment, whatever the role, PUT /comments/:id leaves the store unchanged
    and answers 404 when the content is non-empty and 400 when it is empty
    (the validator runs first).  It answers 200 exactly when the content is
    non-empty and the requester is the author of a comment with that id, and
    then every comment with that id carries the new content; any other answer
    leaves the store unchanged. *)
Theorem update_comment_author_only requester commentId content st :
  let res := Comments.update_comment requester commentId content st in
  ((forall c, In c (comments st) -> c_id c = commentId ->
              c_user_id c <> u_id requester) ->
   fst res = st
   /\ (content <> EmptyString ->
       snd res = mkResponse 404 (Message "Comment not found or access denied"))
   /\ (content = EmptyString -> status (snd res) = 400))
  /\ (status (snd res) = 200 <->
      content <> EmptyString
      /\ exists c, In c (comments st) /\ c_id c = commentId
                   /\ c_user_id c = u_id requester)
  /\ (status (snd res) = 200 ->
      fst res = Sql.update_comment_content commentId content st
      /\ forall c', In c' (comments (fst res)) -> c_id c' = commentId ->
                    c_content c' = content)
  /\ (status (snd res) <> 200 -> fst res = st).
Proof.
  intros res. subst res. unfold Comments.update_comment.
  destruct (content =? EmptyString)%string eqn:Hc.
  - apply String.eqb_eq in Hc. cbn [fst snd status].
    split; [| split; [| split]].
    + intros _. split; [reflexivity |]. split; [congruence | reflexivity].
    + split; [discriminate | intros [Hn _]; contradiction].
    + discriminate.
    + reflexivity.
  - apply String.eqb_neq in Hc.
    destruct (filter _ (comments st)) as [| y r] eqn:Hf; cbn [fst snd status].
    + split; [| split; [| split]].
      * intros _. split; [reflexivity |]. split; [reflexivity | contradiction].
      * split; [discriminate |]. intros [_ [c [Hin [Hid Hu]]]].
        assert (H : In c []).
        { rewrite <- Hf. apply filter_In. split; [exact Hin |].
          apply andb_true_iff. split; now apply Z.eqb_eq. }
        destruct H.
      * discriminate.
      * reflexivity.
    + apply filter_cons_In in Hf. destruct Hf as [Hy Hok].
      apply andb_true_iff in Hok. destruct Hok as [Hid Hu].
      apply Z.eqb_eq in Hid, Hu.
      split; [| split; [| split]].
      * intros Hno. elim (Hno y Hy Hid Hu).
      * split; [intros _ | reflexivity]. split; [exact Hc |]. now exists y.
      * intros _. split; [reflexivity |]. intros c'.
        apply update_comment_content_row.
      * intros H. now elim H.
Qed.

Lemma update_comment_author_only_witness :
  fst (Comments.update_comment Sample.root 1 "edited" Sample.thread)
  = Sample.thread
  /\ snd (Comments.update_comment Sample.root 1 "edited" Sample.thread)
     = mkResponse 404 (Message "Comment not found or access denied")
  /\ fst (Comments.update_comment Sample.alice 1 "edited" Sample.thread)
     = Sql.update_comment_content 1 "edited" Sample.thread.
Proof.
  destruct (update_comment_author_only Sample.root 1 "edited" Sample.thread)
    as [Hdenied _].
  destruct (update_comment_author_only Sample.alice 1 "edited" Sample.thread)
    as [_ [_ [Hok _]]].
  cbv zeta in Hdenied, Hok.
  destruct Hdenied as [Hsame [H404 _]].
  - intros c Hc Hid. simpl in Hc.
    destruct Hc as [Hc | [Hc | [Hc | []]]]; subst c; simpl in Hid |- *;
      discriminate.
  - split; [exact Hsame |]. split; [apply H404; discriminate |].
    apply Hok. reflexivity.
Defined.

(* ================================================================== *)
(** ** POST /posts/:id/like *)
(* ================================================================== *)

Lemma liked_filter st uid pid :
  liked st uid pid = false <->
  filter (fun l => (l_user_id l =? uid) && (l_post_id l =? pid)) (likes st) = [].
Proof.
  unfold liked. split.
  - intros H. apply filter_none. now apply existsb_false_forall.
  - intros H. apply not_true_iff_false. intros Ht.
    apply existsb_exists in Ht. destruct Ht as [l [Hl Hok]].
    destruct (filter_nonempty
                (fun l => (l_user_id l =? uid) && (l_post_id l =? pid))
                (likes st) l Hl Hok) as [y [r Hf]].
    congruence.
Qed.

Lemma find_update_post id f ps :
  (forall p, p_id (f p) = p_id p) ->
  find (fun p => p_id p =? id) (map (fun p => if p_id p =? id then f p else p) ps)
  = option_map f (find (fun p => p_id p =? id) ps).
Proof.
  intros Hid. induction ps as [| p ps IH]; [reflexivity |].
  cbn [map find]. destruct (p_id p =? id) eqn:E.
  - rewrite Hid, E. reflexivity.
  - rewrite E. exact IH.
Qed.

Lemma post_likes_add d id st :
  post_likes (Sql.update_post id (Sql.add_likes d) st) id
  = option_map (fun l => l + d) (post_likes st id).
Proof.
  unfold post_likes, Sql.update_post. cbn [posts].
  rewrite find_update_post by reflexivity.
  now destruct (find _ (posts st)).
Qed.

Lemma post_likes_posts st st' id :
  posts st = posts st' -> post_likes st id = post_likes st' id.
Proof. unfold post_likes. now intros ->. Qed.

Lemma has_post_update id f st pid :
  (forall p, p_id (f p) = p_id p) ->
  Sql.has_post (Sql.update_post id f st) pid = Sql.has_post st pid.
Proof.
  intros Hid. unfold Sql.has_post, Sql.update_post. cbn [posts].
  induction (posts st) as [| p ps IH]; [reflexivity |].
  cbn [map existsb]. rewrite IH. f_equal.
  destruct (p_id p =? id); [now rewrite Hid | reflexivity].
Qed.

Lemma has_post_likes st pid :
  Sql.has_post st pid = true -> exists l, post_likes st pid = Some l.
Proof.
  unfold Sql.has_post, post_likes. intros H.
  destruct (find (fun p => p_id p =? pid) (posts st)) as [p |] eqn:E.
  - now exists (p_likes p).
  - apply existsb_exists in H. destruct H as [p [Hp Hid]].
    pose proof (find_none _ _ E p Hp) as Hn. cbv beta in Hn. congruence.
Qed.

(** The row is there: it is deleted and the counter goes down by one. *)
Lemma toggle_like_when_liked requester postId now st :
  liked st (u_id requester) postId = true ->
  Posts.toggle_like requester postId now st
  = (Sql.update_post postId (Sql.add_likes (-1))
       (Sql.delete_like (u_id requester) postId st),
     mkResponse 200 (LikeToggled "Post unliked" false)).
Proof.
  intros Hl. unfold Posts.toggle_like.
  destruct (filter _ (likes st)) as [| y r] eqn:Hf; [| reflexivity].
  apply liked_filter in Hf. congruence.
Qed.

(** The row is not there: it is inserted and the counter goes up by one. *)
Lemma toggle_like_when_not_liked requester postId now st :
  liked st (u_id requester) postId = false ->
  Sql.has_user st (u_id requester) = true ->
  Sql.has_post st postId = true ->
  Posts.toggle_like requester postId now st
  = (Sql.update_post postId (Sql.add_likes 1) (with_new_like st requester postId now),
     mkResponse 200 (LikeToggled "Post liked" true)).
Proof.
  intros Hl Hu Hp. unfold Posts.toggle_like.
  pose proof Hl as Hf. apply liked_filter in Hf. rewrite Hf.
  unfold Sql.insert_like. unfold liked in Hl. now rewrite Hl, Hu, Hp.
Qed.

Lemma liked_after_unlike uid pid d st :
  liked (Sql.update_post pid (Sql.add_likes d) (Sql.delete_like uid pid st))
    uid pid = false.
Proof.
  unfold liked, Sql.update_post, Sql.delete_like. cbn [likes].
  apply not_true_iff_false. intros Ht. apply existsb_exists in Ht.
  destruct Ht as [l [Hin Hok]]. apply filter_In in Hin.
  destruct Hin as [_ Hn]. rewrite Hok in Hn. discriminate.
Qed.

Lemma liked_after_like requester pid d now st :
  liked (Sql.update_post pid (Sql.add_likes d) (with_new_like st requester pid now))
    (u_id requester) pid = true.
Proof.
  unfold liked, Sql.update_post, with_new_like. cbn [likes].
  rewrite existsb_app. cbn [existsb l_user_id l_post_id].
  rewrite !Z.eqb_refl. cbn [andb orb]. apply orb_true_r.
Qed.

(** C5. For an authenticated user and an existing post: if the Like row exists
    the toggle deletes it, takes one off the post's likes counter and reports
    liked false; otherwise it inserts the row, adds one and reports liked
    true.  Two toggles in a row by the same user on the same post restore the
    liked state and the counter. *)
Theorem toggle_like_twice requester postId now now' st :
  Sql.has_user st (u_id requester) = true ->
  Sql.has_post st postId = true ->
  let r1 := Posts.toggle_like requester postId now st in
  let r2 := Posts.toggle_like requester postId now' (fst r1) in
  exists n, post_likes st postId = Some n
  /\ (liked st (u_id requester) postId = true ->
      snd r1 = mkResponse 200 (LikeToggled "Post unliked" false)
      /\ liked (fst r1) (u_id requester) postId = false
      /\ post_likes (fst r1) postId = Some (n - 1)
      /\ snd r2 = mkResponse 200 (LikeToggled "Post liked" true))
  /\ (liked st (u_id requester) postId = false ->
      snd r1 = mkResponse 200 (LikeToggled "Post liked" true)
      /\ liked (fst r1) (u_id requester) postId = true
      /\ post_likes (fst r1) postId = Some (n + 1)
      /\ snd r2 = mkResponse 200 (LikeToggled "Post unliked" false))
  /\ liked (fst r2) (u_id requester) postId = liked st (u_id requester) postId
  /\ post_likes (fst r2) postId = Some n.
Proof.
  intros Hu Hp r1 r2. subst r1 r2.
  destruct (has_post_likes st postId Hp) as [n Hn]. exists n.
  split; [exact Hn |].
  destruct (liked st (u_id requester) postId) eqn:Hl.
  - rewrite (toggle_like_when_liked requester postId now st Hl). cbn [fst snd].
    set (st1 := Sql.update_post postId (Sql.add_likes (-1))
                  (Sql.delete_like (u_id requester) postId st)).
    assert (H1 : post_likes st1 postId = Some (n - 1)).
    { subst st1. rewrite post_likes_add.
      rewrite (post_likes_posts _ st) by reflexivity. now rewrite Hn. }
    rewrite (toggle_like_when_not_liked requester postId now' st1).
    + cbn [fst snd]. split; [| split; [discriminate | split]].
      * intros _. split; [reflexivity |].
        split; [apply liked_after_unlike |]. now split.
      * apply liked_after_like.
      * rewrite post_likes_add.
        rewrite (post_likes_posts _ st1) by reflexivity.
        rewrite H1. cbn [option_map]. f_equal. lia.
    + apply liked_after_unlike.
    + exact Hu.
    + subst st1. rewrite has_post_update by reflexivity. exact Hp.
  - rewrite (toggle_like_when_not_liked requester postId now st Hl Hu Hp).
    cbn [fst snd].
    set (st1 := Sql.update_post postId (Sql.add_likes 1) _).
    assert (H1 : post_likes st1 postId = Some (n + 1)).
    { subst st1. rewrite post_likes_add.
      rewrite (post_likes_posts _ st) by reflexivity. now rewrite Hn. }
    assert (Hl1 : liked st1 (u_id requester) postId = true)
      by apply liked_after_like.
    rewrite (toggle_like_when_liked requester postId now' st1 Hl1).
    cbn [fst snd]. split; [discriminate | split; [| split]].
    + intros _. now repeat split.
    + apply liked_after_unlike.
    + rewrite post_likes_add.
      rewrite (post_likes_posts _ st1) by reflexivity.
      rewrite H1. cbn [option_map]. f_equal. lia.
Qed.

Lemma toggle_like_twice_witness :
  let r1 := Posts.toggle_like Sample.alice 1 200 Sample.blog in
  let r2 := Posts.toggle_like Sample.alice 1 201 (fst r1) in
  liked (fst r2) 1 1 = liked Sample.blog 1 1
  /\ post_likes (fst r2) 1 = post_likes Sample.blog 1.
Proof.
  destruct (toggle_like_twice Sample.alice 1 200 201 Sample.blog)
    as [n [Hn [_ [_ [Hl Hc]]]]].
  - reflexivity.
  - reflexivity.
  - cbv zeta. split; [exact Hl |]. cbv zeta in Hc. now rewrite Hc, Hn.
Defined.

(* ================================================================== *)
(** ** GET /posts/:id: the view counter *)
(* ================================================================== *)

Lemma post_views_add d id st :
  post_views (Sql.update_post id (Sql.add_views d) st) id
  = option_map (fun v => v + d) (post_views st id).
Proof.
  unfold post_views, Sql.update_post. cbn [posts].
  rewrite find_update_post by reflexivity.
  now destruct (find _ (posts st)).
Qed.

Lemma post_views_add_other d id other st :
  other <> id ->
  post_views (Sql.update_post id (Sql.add_views d) st) other
  = post_views st other.
Proof.
  intros Hne. unfold post_views, Sql.update_post. cbn [posts].
  induction (posts st) as [| p ps IH]; [reflexivity |].
  cbn [map find]. destruct (p_id p =? id) eqn:E.
  - cbn [Sql.add_views p_id]. apply Z.eqb_eq in E.
    destruct (p_id p =? other) eqn:E2; [| exact IH].
    apply Z.eqb_eq in E2. congruence.
  - destruct (p_id p =? other); [reflexivity | exact IH].
Qed.

(** The UPDATE comes first and nothing after it touches the store. *)
Lemma get_post_store postId st :
  fst (Posts.get_post postId st) = Sql.update_post postId (Sql.add_views 1) st.
Proof.
  unfold Posts.get_post. now destruct (flat_map _ _).
Qed.

Lemma run_cons r rs st : run (r :: rs) st = run rs (fst (handle r st)).
Proof. reflexivity. Qed.

Lemma get_post_repeated postId n :
  forall st,
    post_views (run (repeat (GetPost postId) n) st) postId
    = option_map (fun v => v + Z.of_nat n) (post_views st postId).
Proof.
  induction n as [| n IH]; intros st.
  - cbn [repeat run fold_left]. destruct (post_views st postId); simpl;
      [f_equal; lia | reflexivity].
  - cbn [repeat]. rewrite run_cons, IH. cbn [handle].
    rewrite get_post_store, post_views_add.
    destruct (post_views st postId); cbn [option_map]; [f_equal; lia | reflexivity].
Qed.

(** A fetch of a draft post answers 404 and still counts a view. *)
Lemma get_post_draft_counts_view :
  snd (Posts.get_post 2 Sample.blog) = mkResponse 404 (Message "Post not found")
  /\ post_views Sample.blog 2 = Some 0
  /\ post_views (fst (Posts.get_post 2 Sample.blog)) 2 = Some 1.
Proof. repeat split. Qed.

(** C7. Every fetch of a post by id adds exactly one to that post's view
    counter and to no other: the handler takes no caller and keeps no record
    of viewers, [n] fetches add [n], and the store after the fetch is the same
    whether the answer is the post (200) or 404. *)
Theorem get_post_counts_every_view postId st :
  post_views (fst (Posts.get_post postId st)) postId
  = option_map (fun v => v + 1) (post_views st postId)
  /\ (forall other, other <> postId ->
        post_views (fst (Posts.get_post postId st)) other = post_views st other)
  /\ (forall n, post_views (run (repeat (GetPost postId) n) st) postId
                = option_map (fun v => v + Z.of_nat n) (post_views st postId))
  /\ fst (Posts.get_post postId st) = Sql.update_post postId (Sql.add_views 1) st
  /\ In (status (snd (Posts.get_post postId st))) [200; 404].
Proof.
  rewrite get_post_store. split; [apply post_views_add |].
  split; [intros other Hne; now apply post_views_add_other |].
  split; [intros n; apply get_post_repeated |].
  split; [reflexivity |].
  unfold Posts.get_post. destruct (flat_map _ _); simpl; auto.
Qed.

Lemma get_post_counts_every_view_witness :
  post_views (fst (Posts.get_post 1 Sample.blog)) 1 = Some 8
  /\ post_views (fst (Posts.get_post 1 Sample.blog)) 3 = Some 0
  /\ post_views (run (repeat (GetPost 1) 5) Sample.blog) 1 = Some 12.
Proof.
  destruct (get_post_counts_every_view 1 Sample.blog) as [H1 [H2 [H3 _]]].
  split; [rewrite H1; reflexivity |].
  split; [rewrite H2; [reflexivity | discriminate] |].
  rewrite H3. reflexivity.
Defined.

(* ================================================================== *)
(** ** Pagination arithmetic *)
(* ================================================================== *)



Lemma or_default_nonzero n d : d <> 0 -> JS.or_default n d <> 0.
Proof.
  intros Hd. unfold JS.or_default. destruct n as [z |]; [| exact Hd].
  destruct (z =? 0) eqn:E; [exact Hd | now apply Z.eqb_neq].
Qed.

(** No handler divides by zero: [parseInt(..) || d] is never 0. *)
Lemma limit_of_nonzero e q_limit : Paging.limit_of e q_limit <> 0.
Proof.
  apply or_default_nonzero. destruct e; discriminate.
Qed.

(** With a page and a limit of at least 1 the LIMIT/OFFSET query succeeds and
    returns the slice of the ordered rows that starts at the offset. *)
Lemma limit_offset_slice {A : Type} (p l : Z) (rows : list A) :
  1 <= p -> 0 < l ->
  Sql.limit_offset l (Paging.offset_of p l) rows
  = Some (firstn (Z.to_nat l) (skipn (Z.to_nat ((p - 1) * l)) rows)).
Proof.
  intros Hp Hl. unfold Sql.limit_offset, Paging.offset_of.
  assert (H1 : (l <? 0) = false) by (apply Z.ltb_ge; lia).
  assert (H2 : ((p - 1) * l <? 0) = false) by (apply Z.ltb_ge; nia).
  now rewrite H1, H2.
Qed.

(** Every list handler, on a page and a limit of at least 1. *)
Lemma paginate_page {A : Type} e q_page q_limit (rows : list A) count :
  1 <= Paging.page_of q_page -> 0 < Paging.limit_of e q_limit ->
  Paging.paginate e q_page q_limit rows count
  = Some (firstn (Z.to_nat (Paging.limit_of e q_limit))
            (skipn (Z.to_nat ((Paging.page_of q_page - 1)
                              * Paging.limit_of e q_limit)) rows),
          Paging.pagination_of (Paging.page_of q_page)
            (Paging.limit_of e q_limit) count).
Proof.
  intros Hp Hl. unfold Paging.paginate.
  now rewrite (limit_offset_slice _ _ rows Hp Hl).
Qed.

(** A negative limit reaches the store unchecked, which rejects the
    statement: the handler answers 500. *)
Lemma paginate_negative_limit {A : Type} e q_page q_limit (rows : list A) count :
  Paging.limit_of e q_limit < 0 ->
  Paging.paginate e q_page q_limit rows count = None.
Proof.
  intros Hl. unfold Paging.paginate, Sql.limit_offset.
  apply Z.ltb_lt in Hl. now rewrite Hl.
Qed.

(** GET /comments/post/:postId on the sample thread: one top-level comment
    with one direct reply. *)
Lemma get_post_comments_sample :
  exists v,
    Comments.get_post_comments 1 None None Sample.thread
    = mkResponse 200
        (CommentPage [mkCommentItem v 1] (mkPagination 1 1 false false))
    /\ cv_row v = Sample.c1.
Proof. eexists. split; reflexivity. Qed.



(* ================================================================== *)
(** ** Coercion of page and limit *)
(* ================================================================== *)





(* ================================================================== *)
(** ** ORDER BY *)
(* ================================================================== *)

Section OrderBy.

Context {A : Type} (le : A -> A -> bool).

Lemma insert_by_perm x l : Permutation (x :: l) (Sql.insert_by le x l).
Proof.
  induction l as [| y r IH]; cbn [Sql.insert_by]; [reflexivity |].
  destruct (le x y); [reflexivity |].
  apply perm_trans with (y :: x :: r); [apply perm_swap | now apply perm_skip].
Qed.

Lemma order_by_perm l : Permutation l (Sql.order_by le l).
Proof.
  unfold Sql.order_by. induction l as [| x l IH]; cbn [fold_right]; [reflexivity |].
  rewrite <- insert_by_perm. now apply perm_skip.
Qed.

Lemma order_by_In l x : In x (Sql.order_by le l) <-> In x l.
Proof.
  split; apply Permutation_in; [symmetry |]; apply order_by_perm.
Qed.

Lemma order_by_length l : List.length (Sql.order_by le l) = List.length l.
Proof. symmetry. apply Permutation_length, order_by_perm. Qed.

Hypothesis le_total : forall a b, le a b = true \/ le b a = true.
Hypothesis le_trans :
  forall a b c, le a b = true -> le b c = true -> le a c = true.

Lemma insert_by_sorted x l :
  StronglySorted (fun a b => le a b = true) l ->
  StronglySorted (fun a b => le a b = true) (Sql.insert_by le x l).
Proof.
  induction 1 as [| y r Hs IH Hy]; cbn [Sql.insert_by].
  - repeat constructor.
  - destruct (le x y) eqn:E.
    + constructor; [now constructor |]. constructor; [exact E |].
      rewrite Forall_forall in *. intros z Hz. apply le_trans with y; auto.
    + constructor; [exact IH |].
      rewrite Forall_forall in *. intros z Hz.
      apply (Permutation_in _ (Permutation_sym (insert_by_perm x r))) in Hz.
      destruct Hz as [<- | Hz]; [| now apply Hy].
      destruct (le_total x y) as [H | H]; [congruence | exact H].
Qed.

Lemma order_by_sorted l :
  StronglySorted (fun a b => le a b = true) (Sql.order_by le l).
Proof.
  unfold Sql.order_by. induction l as [| x l IH]; cbn [fold_right].
  - constructor.
  - now apply insert_by_sorted.
Qed.

End OrderBy.

Lemma StronglySorted_app {A : Type} (R : A -> A -> Prop) l1 l2 :
  StronglySorted R l1 -> StronglySorted R l2 ->
  (forall x y, In x l1 -> In y l2 -> R x y) ->
  StronglySorted R (l1 ++ l2)%list.
Proof.
  intros H1 H2 H12. induction H1 as [| a l Hs IH Ha]; [exact H2 |].
  cbn [app]. constructor.
  - apply IH. intros x y Hx. apply H12. now right.
  - apply Forall_app. split; [exact Ha |].
    apply Forall_forall. intros y Hy. apply H12; [now left | exact Hy].
Qed.

(** A join keeps the order of the rows it starts from. *)
Lemma StronglySorted_flat_map {A B : Type} (R : A -> A -> Prop)
    (S : B -> B -> Prop) (f : A -> list B) l :
  StronglySorted R l ->
  (forall a, StronglySorted S (f a)) ->
  (forall a b x y, R a b -> In x (f a) -> In y (f b) -> S x y) ->
  StronglySorted S (flat_map f l).
Proof.
  intros Hl Hf HR. induction Hl as [| a l Hs IH Ha]; [constructor |].
  cbn [flat_map]. apply StronglySorted_app; [apply Hf | exact IH |].
  intros x y Hx Hy. apply in_flat_map in Hy. destruct Hy as [b [Hb Hy]].
  rewrite Forall_forall in Ha. apply (HR a b); [now apply Ha | exact Hx | exact Hy].
Qed.

Lemma StronglySorted_weaken {A : Type} (R Q : A -> A -> Prop) l :
  (forall a b, R a b -> Q a b) -> StronglySorted R l -> StronglySorted Q l.
Proof.
  intros HRQ. induction 1 as [| a l Hs IH Ha]; constructor; [exact IH |].
  eapply Forall_impl; [| exact Ha]. intros b. apply HRQ.
Qed.

Lemma oldest_first_sorted cs :
  StronglySorted (fun a b => c_created_at a <= c_created_at b)
    (Sql.order_by Comments.oldest_first cs).
Proof.
  eapply StronglySorted_weaken; [| apply (order_by_sorted Comments.oldest_first)].
  - intros a b H. now apply Z.leb_le.
  - intros a b. unfold Comments.oldest_first. rewrite !Z.leb_le. lia.
  - intros a b c. unfold Comments.oldest_first. rewrite !Z.leb_le. lia.
Qed.


Lemma join_user_In st c v :
  In v (Comments.join_user st c) <->
  exists u, In u (users st) /\ u_id u = c_user_id c
            /\ v = mkCommentView c (u_username u) (u_full_name u) (u_avatar u).
Proof.
  unfold Comments.join_user. rewrite in_map_iff. split.
  - intros [u [Hv Hu]]. apply filter_In in Hu. destruct Hu as [Hu Hid].
    apply Z.eqb_eq in Hid. exists u. auto.
  - intros [u [Hu [Hid Hv]]]. exists u. split; [now symmetry |].
    apply filter_In. split; [exact Hu |]. apply Z.eqb_eq. now symmetry.
Qed.

Lemma join_user_row st c v : In v (Comments.join_user st c) -> cv_row v = c.
Proof.
  intros H. apply join_user_In in H. destruct H as [u [_ [_ ->]]]. reflexivity.
Qed.

(* ================================================================== *)
(** ** GET /comments/comment/:commentId/replies *)
(* ================================================================== *)

(** The replies endpoint answers 200 for every id, with exactly the comments
    whose parent_id is that id, each joined with a row of its author, oldest
    first; a reply to one of those replies is not among them. *)
Theorem get_replies_direct_children commentId st :
  exists vs,
    Comments.get_replies commentId st = mkResponse 200 (Replies vs)
    /\ (forall v, In v vs <->
          In (cv_row v) (comments st)
          /\ c_parent_id (cv_row v) = Some commentId
          /\ exists u, In u (users st) /\ u_id u = c_user_id (cv_row v)
                       /\ v = mkCommentView (cv_row v) (u_username u)
                                (u_full_name u) (u_avatar u))
    /\ StronglySorted
         (fun v w => c_created_at (cv_row v) <= c_created_at (cv_row w)) vs.
Proof.
  eexists. split; [reflexivity |]. split.
  - intros v. rewrite in_flat_map. split.
    + intros [c [Hc Hv]]. apply order_by_In in Hc. apply filter_In in Hc.
      destruct Hc as [Hc Hp]. apply sql_eq_true in Hp.
      pose proof (join_user_row st c v Hv) as Hrow. subst c.
      apply join_user_In in Hv. tauto.
    + intros [Hc [Hp Hu]]. exists (cv_row v). split.
      * apply order_by_In. apply filter_In. split; [exact Hc |].
        now apply sql_eq_true.
      * now apply join_user_In.
  - apply StronglySorted_flat_map
      with (R := fun a b => c_created_at a <= c_created_at b).
    + apply oldest_first_sorted.
    + intros c. unfold Comments.join_user.
      induction (filter _ (users st)) as [| u us IH]; cbn [map]; constructor;
        [exact IH |].
      apply Forall_forall. intros w Hw. apply in_map_iff in Hw.
      destruct Hw as [u' [<- _]]. cbn [cv_row]. lia.
    + intros a b x y Hab Hx Hy.
      now rewrite (join_user_row st a x Hx), (join_user_row st b y Hy).
Qed.

(* ================================================================== *)
(** ** Pages and their metadata *)
(* ================================================================== *)
















(* ================================================================== *)
(** ** What the list handlers show *)
(* ================================================================== *)






Lemma references_okb_true st : references_okb st = true -> references_ok st.
Proof.
  unfold references_okb, references_ok. intros H.
  apply andb_true_iff in H. destruct H as [H Hl].
  apply andb_true_iff in H. destruct H as [Hp Hc].
  rewrite forallb_forall in Hp, Hc, Hl. split; [exact Hp |]. split.
  - intros c Hin. specialize (Hc c Hin).
    apply andb_true_iff in Hc. destruct Hc as [Hc Hq].
    apply andb_true_iff in Hc. destruct Hc as [Hpost Huser].
    split; [exact Hpost |]. split; [exact Huser |].
    intros q Hpar. now rewrite Hpar in Hq.
  - intros l Hin. specialize (Hl l Hin). now apply andb_true_iff in Hl.
Qed.

(** With a primary key on users, the join finds one author row. *)
Lemma one_author st id :
  unique_user_ids st -> Sql.has_user st id = true ->
  exists u, In u (users st) /\ u_id u = id
            /\ filter (fun u' => id =? u_id u') (users st) = [u].
Proof.
  unfold unique_user_ids, Sql.has_user.
  induction (users st) as [| a us IH]; intros Hnd Hex; [discriminate |].
  cbn [map] in Hnd. inversion Hnd as [| ? ? Hnotin Hnd']; subst.
  cbn [existsb] in Hex. cbn [filter]. destruct (id =? u_id a) eqn:E.
  - apply Z.eqb_eq in E. exists a. split; [now left |]. split; [now symmetry |].
    f_equal. apply filter_none. intros x Hx. apply Z.eqb_neq. intros Heq.
    apply Hnotin. rewrite <- E, Heq. now apply in_map.
  - rewrite Z.eqb_sym, E in Hex. cbn [orb] in Hex.
    destruct (IH Hnd' Hex) as [u [Hu [Hid Hf]]].
    exists u. split; [now right |]. now split.
Qed.

Lemma flat_map_singletons {A B : Type} (f : A -> list B) (l : list A) :
  (forall a, In a l -> List.length (f a) = 1%nat) ->
  List.length (flat_map f l) = List.length l.
Proof.
  intros H. induction l as [| a l IH]; [reflexivity |].
  cbn [flat_map]. rewrite length_app, (H a) by now left.
  cbn [List.length Nat.add]. f_equal. apply IH. intros x Hx. apply H. now right.
Qed.

Lemma join_user_one st c :
  unique_user_ids st -> Sql.has_user st (c_user_id c) = true ->
  List.length (Comments.join_user st c) = 1%nat.
Proof.
  intros Hu Hex. unfold Comments.join_user.
  destruct (one_author st (c_user_id c) Hu Hex) as [u [_ [_ Hf]]].
  now rewrite Hf.
Qed.

(** The counts agree with the lists when the store has referential integrity
    and unique user ids: the total the post listing paginates over is the
    number of rows it lists over all pages, and the replies_count shown for a
    comment is the number of replies the replies endpoint returns for it. *)
Theorem comment_counts_agree_with_lists st :
  references_ok st -> unique_user_ids st ->
  (forall postId,
     Comments.count_top_level_of_post st postId
     = Z.of_nat (List.length (Comments.top_level_of_post st postId)))
  /\ (forall commentId,
        exists vs,
          Comments.get_replies commentId st = mkResponse 200 (Replies vs)
          /\ Comments.replies_count st commentId = Z.of_nat (List.length vs)).
Proof.
  intros [_ [Hc _]] Hu. split.
  - intros postId.
    unfold Comments.count_top_level_of_post, Comments.top_level_of_post.
    rewrite length_map, flat_map_singletons.
    + now rewrite order_by_length.
    + intros c Hin. apply order_by_In in Hin. apply filter_In in Hin.
      apply join_user_one; [exact Hu |]. now apply Hc.
  - intros commentId. eexists. split; [reflexivity |].
    unfold Comments.replies_count. rewrite flat_map_singletons.
    + now rewrite order_by_length.
    + intros c Hin. apply order_by_In in Hin. apply filter_In in Hin.
      apply join_user_one; [exact Hu |]. now apply Hc.
Qed.

Lemma comment_counts_agree_with_lists_witness :
  Comments.count_top_level_of_post Sample.thread 1
  = Z.of_nat (List.length (Comments.top_level_of_post Sample.thread 1))
  /\ exists vs,
       Comments.get_replies 1 Sample.thread = mkResponse 200 (Replies vs)
       /\ Comments.replies_count Sample.thread 1 = Z.of_nat (List.length vs).
Proof.
  destruct (comment_counts_agree_with_lists Sample.thread) as [H1 H2].
  - apply references_okb_true. reflexivity.
  - unfold unique_user_ids. simpl. repeat constructor; simpl; intuition lia.
  - split; [apply H1 | apply H2].
Defined.

(* ================================================================== *)
(** ** Post lists *)
(* ================================================================== *)











(* ================================================================== *)
(** ** GET /comments/user/:userId *)
(* ================================================================== *)




(* ================================================================== *)
(** ** Deleting twice, deleting posts, deleting users *)
(* ================================================================== *)

Lemma cascade_replies_stop fuel dead cs :
  filter (Sql.parent_among dead) cs = [] -> Sql.cascade_replies fuel dead cs = cs.
Proof.
  intros H. destruct fuel; cbn [Sql.cascade_replies]; [reflexivity |].
  now rewrite H.
Qed.

(** When every reply to a selected row is selected itself, the DELETE removes
    the selected rows and no other. *)
Lemma delete_from_comments_exact sel cs :
  (forall c x, In c cs -> In x cs -> sel x = true ->
               c_parent_id c = Some (c_id x) -> sel c = true) ->
  Sql.delete_from_comments sel cs = filter (fun c => negb (sel c)) cs.
Proof.
  intros Hclosed. unfold Sql.delete_from_comments. apply cascade_replies_stop.
  apply filter_none. intros c Hc. apply filter_In in Hc. destruct Hc as [Hc Hn].
  apply not_true_iff_false. intros Hp.
  apply SqlFacts.parent_among_true in Hp. destruct Hp as [q [Hq Hin]].
  apply in_map_iff in Hin. destruct Hin as [x [Hid Hx]].
  apply filter_In in Hx. destruct Hx as [Hx Hsel].
  rewrite (Hclosed c x Hc Hx Hsel) in Hn; [discriminate |]. now rewrite Hid.
Qed.

Lemma same_id_same_row cs q x :
  NoDup (map c_id cs) -> In q cs -> In x cs -> c_id q = c_id x -> q = x.
Proof.
  induction cs as [| a cs IH]; intros Hnd Hq Hx Hid; [destruct Hq |].
  cbn [map] in Hnd. inversion Hnd as [| ? ? Hnotin Hnd']; subst.
  destruct Hq as [-> | Hq], Hx as [-> | Hx]; auto.
  - elim Hnotin. rewrite Hid. now apply in_map.
  - elim Hnotin. rewrite <- Hid. now apply in_map.
Qed.

(** A second DELETE of the same comment by the same requester answers 404
    and changes nothing. *)
Theorem delete_comment_twice requester commentId st c :
  In c (comments st) -> c_id c = commentId ->
  c_user_id c = u_id requester \/ u_role requester = admin ->
  let st' := fst (Comments.delete_comment requester commentId st) in
  status (snd (Comments.delete_comment requester commentId st)) = 200
  /\ Comments.delete_comment requester commentId st'
     = (st', mkResponse 404 (Message "Comment not found or access denied")).
Proof.
  intros Hc Hid Hauth st'. subst st'.
  rewrite (delete_comment_authorized requester commentId st c Hc Hid Hauth).
  cbn [fst snd status]. split; [reflexivity |].
  unfold Comments.delete_comment at 1. rewrite filter_none; [reflexivity |].
  intros x Hx. cbn [Sql.delete_comments_where comments] in Hx.
  apply SqlFacts.delete_from_comments_not_selected in Hx.
  apply id_or_parent_is_false in Hx. destruct Hx as [Hx _].
  apply Z.eqb_neq in Hx. now rewrite Hx.
Qed.

Lemma delete_comment_twice_witness :
  Comments.delete_comment Sample.bob 2
    (fst (Comments.delete_comment Sample.bob 2 Sample.thread))
  = (fst (Comments.delete_comment Sample.bob 2 Sample.thread),
     mkResponse 404 (Message "Comment not found or access denied")).
Proof.
  apply (delete_comment_twice Sample.bob 2 Sample.thread Sample.c2).
  - simpl. right. left. reflexivity.
  - reflexivity.
  - left. reflexivity.
Defined.

Lemma delete_comment_denied_witness :
  Comments.delete_comment Sample.bob 1 Sample.thread
  = (Sample.thread, mkResponse 404 (Message "Comment not found or access denied"))
  /\ Comments.delete_comment Sample.bob 77 Sample.thread
     = (Sample.thread, mkResponse 404 (Message "Comment not found or access denied")).
Proof.
  split; apply delete_comment_denied; intros c Hc Hid; simpl in Hc;
    destruct Hc as [Hc | [Hc | [Hc | []]]]; subst c; simpl in Hid |- *;
    try discriminate; split; discriminate.
Defined.

Lemma mem_id_of_post st postId x p :
  In p (posts st) -> p_id p = postId ->
  Sql.mem_id (map p_id (filter (fun q => p_id q =? postId) (posts st))) x
  = (x =? postId).
Proof.
  intros Hp Hid. destruct (x =? postId) eqn:E.
  - apply Z.eqb_eq in E. apply SqlFacts.mem_id_In. apply in_map_iff.
    exists p. split; [congruence |]. apply filter_In. split; [exact Hp |].
    now apply Z.eqb_eq.
  - apply not_true_iff_false. intros H. apply SqlFacts.mem_id_In in H.
    apply in_map_iff in H. destruct H as [q [Hq Hin]].
    apply filter_In in Hin. destruct Hin as [_ Hqid]. apply Z.eqb_eq in Hqid.
    apply Z.eqb_neq in E. congruence.
Qed.

Lemma delete_post_authorized requester postId st p :
  In p (posts st) -> p_id p = postId ->
  p_author_id p = u_id requester \/ u_role requester = admin ->
  Posts.delete_post requester postId st
  = (Sql.delete_posts_where (fun q => p_id q =? postId) st,
     mkResponse 200 (Message "Post deleted successfully")).
Proof.
  intros Hin Hid Hauth. unfold Posts.delete_post.
  destruct (filter_nonempty
              (fun q => (p_id q =? postId)
                        && ((p_author_id q =? u_id requester)
                            || Role_eqb (u_role requester) admin))
              (posts st) p Hin) as [y [r Hf]].
  - apply andb_true_iff. split; [now apply Z.eqb_eq |].
    apply orb_true_iff. destruct Hauth as [Hu | Hr].
    + left. now apply Z.eqb_eq.
    + right. now rewrite Hr.
  - now rewrite Hf.
Qed.

(** An authorized DELETE /posts/:id removes the post with its likes and its
    comments and leaves users, other posts and other likes alone; when
    comment ids are unique and replies sit on their parent's post, the
    comments of the other posts all stay. *)
Theorem delete_post_takes_what_it_owns requester postId st p :
  In p (posts st) -> p_id p = postId ->
  p_author_id p = u_id requester \/ u_role requester = admin ->
  let res := Posts.delete_post requester postId st in
  snd res = mkResponse 200 (Message "Post deleted successfully")
  /\ users (fst res) = users st
  /\ posts (fst res) = filter (fun q => negb (p_id q =? postId)) (posts st)
  /\ likes (fst res) = filter (fun l => negb (l_post_id l =? postId)) (likes st)
  /\ (forall c, In c (comments (fst res)) ->
        In c (comments st) /\ c_post_id c <> postId)
  /\ (parents_in_same_post st -> NoDup (map c_id (comments st)) ->
      comments (fst res)
      = filter (fun c => negb (c_post_id c =? postId)) (comments st)).
Proof.
  intros Hp Hid Hauth res. subst res.
  rewrite (delete_post_authorized requester postId st p Hp Hid Hauth).
  cbn [fst snd]. unfold Sql.delete_posts_where. cbn [users posts likes comments].
  split; [reflexivity |]. split; [reflexivity |]. split; [reflexivity |].
  split; [| split].
  - apply filter_ext. intros l. now rewrite (mem_id_of_post st postId _ p Hp Hid).
  - intros c Hc. split; [now apply SqlFacts.delete_from_comments_incl in Hc |].
    apply SqlFacts.delete_from_comments_not_selected in Hc.
    rewrite (mem_id_of_post st postId _ p Hp Hid) in Hc. now apply Z.eqb_neq.
  - intros Hinv Hnd. rewrite delete_from_comments_exact.
    + apply filter_ext. intros c.
      now rewrite (mem_id_of_post st postId _ p Hp Hid).
    + intros c x Hc Hx Hsel Hpar.
      rewrite (mem_id_of_post st postId (c_post_id x) p Hp Hid) in Hsel.
      rewrite (mem_id_of_post st postId (c_post_id c) p Hp Hid).
      destruct (Hinv c (c_id x) Hc Hpar) as [q [Hq [Hqid Hqpost]]].
      rewrite (same_id_same_row (comments st) q x Hnd Hq Hx Hqid) in Hqpost.
      now rewrite <- Hqpost.
Qed.

Lemma delete_post_takes_what_it_owns_witness :
  posts (fst (Posts.delete_post Sample.alice 1 Sample2.liked_thread))
  = [Sample.draft_post; Sample.other_post]
  /\ likes (fst (Posts.delete_post Sample.alice 1 Sample2.liked_thread)) = []
  /\ comments (fst (Posts.delete_post Sample.alice 1 Sample2.liked_thread)) = [].
Proof.
  destruct (delete_post_takes_what_it_owns Sample.alice 1 Sample2.liked_thread
              Sample2.liked_post) as [_ [_ [Hposts [Hlikes [_ Hcomments]]]]].
  - simpl. left. reflexivity.
  - reflexivity.
  - left. reflexivity.
  - cbv zeta in *. split; [rewrite Hposts; reflexivity |].
    split; [rewrite Hlikes; reflexivity |].
    rewrite Hcomments; [reflexivity | |].
    + apply same_post_parentsb_true. reflexivity.
    + simpl. repeat constructor; simpl; intuition lia.
Defined.

Lemma mem_id_of_user st userId x :
  Sql.has_user st userId = true ->
  Sql.mem_id (map u_id (filter (fun u => u_id u =? userId) (users st))) x
  = (x =? userId).
Proof.
  intros Hex. unfold Sql.has_user in Hex. apply existsb_exists in Hex.
  destruct Hex as [u [Hu Hid]]. destruct (x =? userId) eqn:E.
  - apply Z.eqb_eq in E, Hid. apply SqlFacts.mem_id_In. apply in_map_iff.
    exists u. split; [congruence |]. apply filter_In. split; [exact Hu |].
    now apply Z.eqb_eq.
  - apply not_true_iff_false. intros H. apply SqlFacts.mem_id_In in H.
    apply in_map_iff in H. destruct H as [q [Hq Hin]].
    apply filter_In in Hin. destruct Hin as [_ Hqid]. apply Z.eqb_eq in Hqid.
    apply Z.eqb_neq in E. congruence.
Qed.

Lemma filter_all {A : Type} (f : A -> bool) (l : list A) :
  (forall x, In x l -> f x = true) -> filter f l = l.
Proof.
  intros H. apply forallb_filter_id. now apply forallb_forall.
Qed.


Lemma filter_filter_shorter {A : Type} (f g : A -> bool) (l : list A) (x : A) :
  In x l -> f x = true -> g x = false ->
  (List.length (filter f (filter g l)) < List.length (filter f l))%nat.
Proof.
  intros Hin Hf Hg. induction l as [| a l IH]; [destruct Hin |].
  assert (Hle : forall l', (List.length (filter f (filter g l'))
                            <= List.length (filter f l'))%nat).
  { clear. induction l' as [| b l' IH]; [reflexivity |].
    cbn [filter]. destruct (g b), (f b) eqn:E; cbn [filter List.length];
      rewrite ?E; cbn [List.length]; lia. }
  cbn [filter]. destruct Hin as [-> | Hin].
  - rewrite Hg, Hf. cbn [List.length]. specialize (Hle l). lia.
  - specialize (IH Hin). destruct (g a), (f a) eqn:E; cbn [filter List.length];
      rewrite ?E; cbn [List.length]; lia.
Qed.

(** Deleting a user takes the user's Like rows with it but leaves the likes
    counters as they were: a post of another author that the deleted user
    liked keeps a counter above the number of its Like rows. *)
Theorem delete_user_leaves_like_counters requester userId st p :
  likes_counted st ->
  userId <> u_id requester ->
  Sql.has_user st userId = true ->
  In p (posts st) -> p_author_id p <> userId ->
  liked st userId (p_id p) = true ->
  let st' := fst (Admin.delete_user requester userId st) in
  In p (posts st') /\ like_count st' (p_id p) < p_likes p.
Proof.
  intros Hcount Hne Hex Hp Hauthor Hliked st'. subst st'.
  unfold Admin.delete_user. apply Z.eqb_neq in Hne. rewrite Hne. cbn [fst].
  unfold Sql.delete_users_where. split.
  - cbn [posts]. apply filter_In. split; [exact Hp |].
    rewrite (mem_id_of_user st userId _ Hex).
    apply negb_true_iff. now apply Z.eqb_neq.
  - rewrite (Hcount p Hp). unfold like_count. cbn [likes].
    unfold liked in Hliked. apply existsb_exists in Hliked.
    destruct Hliked as [l [Hl Hok]]. apply andb_true_iff in Hok.
    destruct Hok as [Hu Hpost].
    apply inj_lt.
    apply (filter_filter_shorter (fun l0 => l_post_id l0 =? p_id p) _ (likes st) l Hl Hpost).
    apply negb_false_iff, orb_true_iff. left.
    rewrite (mem_id_of_user st userId _ Hex). exact Hu.
Qed.

Lemma delete_user_leaves_like_counters_witness :
  like_count (fst (Admin.delete_user Sample.root 2 Sample2.liked_thread)) 1
  < p_likes Sample2.liked_post.
Proof.
  destruct (delete_user_leaves_like_counters Sample.root 2 Sample2.liked_thread
              Sample2.liked_post) as [_ H].
  - intros p Hp. simpl in Hp.
    destruct Hp as [Hp | [Hp | [Hp | []]]]; subst p; reflexivity.
  - discriminate.
  - reflexivity.
  - simpl. left. reflexivity.
  - discriminate.
  - reflexivity.
  - exact H.
Defined.

(* ================================================================== *)
(** ** Referential integrity *)
(* ================================================================== *)

Lemma has_user_In st id :
  Sql.has_user st id = true <-> exists u, In u (users st) /\ u_id u = id.
Proof.
  unfold Sql.has_user. rewrite existsb_exists.
  split; intros [u [Hu Hid]]; exists u; split; auto; now apply Z.eqb_eq.
Qed.

Lemma has_post_In st id :
  Sql.has_post st id = true <-> exists p, In p (posts st) /\ p_id p = id.
Proof.
  unfold Sql.has_post. rewrite existsb_exists.
  split; intros [p [Hp Hid]]; exists p; split; auto; now apply Z.eqb_eq.
Qed.

Lemma has_comment_In st id :
  Sql.has_comment st id = true <-> exists c, In c (comments st) /\ c_id c = id.
Proof.
  unfold Sql.has_comment. rewrite existsb_exists.
  split; intros [c [Hc Hid]]; exists c; split; auto; now apply Z.eqb_eq.
Qed.

(** The parent of a row that stays stays too. *)
Lemma parent_survives sel cs c q :
  In c (Sql.delete_from_comments sel cs) -> c_parent_id c = Some q ->
  (exists x, In x cs /\ c_id x = q) ->
  exists x, In x (Sql.delete_from_comments sel cs) /\ c_id x = q.
Proof.
  intros Hc Hpar [x [Hx Hid]]. exists x. split; [| exact Hid].
  apply SqlFacts.delete_from_comments_spec in Hc. destruct Hc as [Hin Hstay].
  apply SqlFacts.delete_from_comments_spec. split; [exact Hx |].
  intros Hgo. apply Hstay. apply cascades_reply with x; auto. now rewrite Hid.
Qed.

Lemma references_ok_delete_comments sel st :
  references_ok st -> references_ok (Sql.delete_comments_where sel st).
Proof.
  intros [Hp [Hc Hl]]. split; [exact Hp |]. split; [| exact Hl].
  intros c Hin. cbn [Sql.delete_comments_where comments] in Hin.
  pose proof (SqlFacts.delete_from_comments_incl _ _ _ Hin) as Hin0.
  destruct (Hc c Hin0) as [Hpost [Huser Hparent]].
  split; [exact Hpost |]. split; [exact Huser |].
  intros q Hq. apply has_comment_In.
  cbn [Sql.delete_comments_where comments].
  apply (parent_survives sel (comments st) c q Hin Hq).
  apply has_comment_In. now apply Hparent.
Qed.

Lemma references_ok_delete_posts sel st :
  references_ok st -> references_ok (Sql.delete_posts_where sel st).
Proof.
  intros [Hp [Hc Hl]].
  assert (Hkeep : forall id,
            Sql.has_post st id = true ->
            Sql.mem_id (map p_id (filter sel (posts st))) id = false ->
            Sql.has_post (Sql.delete_posts_where sel st) id = true).
  { intros id Hex Hdead. apply has_post_In in Hex. destruct Hex as [p [Hin Hid]].
    apply has_post_In. exists p. split; [| exact Hid].
    cbn [Sql.delete_posts_where posts]. apply filter_In. split; [exact Hin |].
    apply negb_true_iff, not_true_iff_false. intros Hsel.
    apply not_true_iff_false in Hdead. apply Hdead, SqlFacts.mem_id_In.
    rewrite <- Hid. apply in_map. apply filter_In. now split. }
  split; [| split].
  - intros p Hin. cbn [Sql.delete_posts_where posts] in Hin.
    apply filter_In in Hin. now apply Hp.
  - intros c Hin. cbn [Sql.delete_posts_where comments] in Hin.
    pose proof (SqlFacts.delete_from_comments_incl _ _ _ Hin) as Hin0.
    pose proof (SqlFacts.delete_from_comments_not_selected _ _ _ Hin) as Hsel.
    destruct (Hc c Hin0) as [Hpost [Huser Hparent]].
    split; [now apply Hkeep |]. split; [exact Huser |].
    intros q Hq. apply has_comment_In. cbn [Sql.delete_posts_where comments].
    apply (parent_survives _ (comments st) c q Hin Hq).
    apply has_comment_In. now apply Hparent.
  - intros l Hin. cbn [Sql.delete_posts_where likes] in Hin.
    apply filter_In in Hin. destruct Hin as [Hin Hsel].
    apply negb_true_iff in Hsel. destruct (Hl l Hin) as [Huser Hpost].
    split; [exact Huser | now apply Hkeep].
Qed.

Lemma references_ok_delete_users sel st :
  references_ok st -> references_ok (Sql.delete_users_where sel st).
Proof.
  intros [Hp [Hc Hl]].
  set (dead_u := map u_id (filter sel (users st))).
  set (dead_p := map p_id (filter (fun p => Sql.mem_id dead_u (p_author_id p))
                             (posts st))).
  assert (Hkeep_u : forall id,
            Sql.has_user st id = true -> Sql.mem_id dead_u id = false ->
            Sql.has_user (Sql.delete_users_where sel st) id = true).
  { intros id Hex Hdead. apply has_user_In in Hex. destruct Hex as [u [Hin Hid]].
    apply has_user_In. exists u. split; [| exact Hid].
    cbn [Sql.delete_users_where users]. apply filter_In. split; [exact Hin |].
    apply negb_true_iff, not_true_iff_false. intros Hsel.
    apply not_true_iff_false in Hdead. apply Hdead, SqlFacts.mem_id_In.
    rewrite <- Hid. apply in_map. apply filter_In. now split. }
  assert (Hkeep_p : forall id,
            Sql.has_post st id = true -> Sql.mem_id dead_p id = false ->
            Sql.has_post (Sql.delete_users_where sel st) id = true).
  { intros id Hex Hdead. apply has_post_In in Hex. destruct Hex as [p [Hin Hid]].
    apply has_post_In. exists p. split; [| exact Hid].
    cbn [Sql.delete_users_where posts]. apply filter_In. split; [exact Hin |].
    apply negb_true_iff, not_true_iff_false. intros Hsel.
    apply not_true_iff_false in Hdead. apply Hdead, SqlFacts.mem_id_In.
    rewrite <- Hid. apply in_map. apply filter_In. now split. }
  split; [| split].
  - intros p Hin. cbn [Sql.delete_users_where posts] in Hin.
    apply filter_In in Hin. destruct Hin as [Hin Hsel].
    apply negb_true_iff in Hsel. apply Hkeep_u; [now apply Hp | exact Hsel].
  - intros c Hin. cbn [Sql.delete_users_where comments] in Hin.
    pose proof (SqlFacts.delete_from_comments_incl _ _ _ Hin) as Hin0.
    pose proof (SqlFacts.delete_from_comments_not_selected _ _ _ Hin) as Hsel.
    apply orb_false_iff in Hsel. destruct Hsel as [Hsu Hsp].
    destruct (Hc c Hin0) as [Hpost [Huser Hparent]].
    split; [now apply Hkeep_p |]. split; [now apply Hkeep_u |].
    intros q Hq. apply has_comment_In. cbn [Sql.delete_users_where comments].
    apply (parent_survives _ (comments st) c q Hin Hq).
    apply has_comment_In. now apply Hparent.
  - intros l Hin. cbn [Sql.delete_users_where likes] in Hin.
    apply filter_In in Hin. destruct Hin as [Hin Hsel].
    apply negb_true_iff, orb_false_iff in Hsel. destruct Hsel as [Hsu Hsp].
    destruct (Hl l Hin) as [Huser Hpost].
    split; [now apply Hkeep_u | now apply Hkeep_p].
Qed.

(** A store that differs in rows only, with the same ids in every table and
    the same references, has the same integrity. *)
Lemma references_ok_same_keys st st' :
  map u_id (users st') = map u_id (users st) ->
  map (fun p => (p_id p, p_author_id p)) (posts st')
  = map (fun p => (p_id p, p_author_id p)) (posts st) ->
  map (fun c => (c_id c, c_post_id c, c_user_id c, c_parent_id c)) (comments st')
  = map (fun c => (c_id c, c_post_id c, c_user_id c, c_parent_id c)) (comments st) ->
  likes st' = likes st ->
  references_ok st -> references_ok st'.
Proof.
  intros Hu Hp Hc Hl [Hpo [Hco Hli]].
  assert (Hhu : forall id, Sql.has_user st id = true -> Sql.has_user st' id = true).
  { intros id H. apply has_user_In in H. destruct H as [u [Hin Hid]].
    apply (in_map u_id) in Hin. rewrite <- Hu in Hin. apply in_map_iff in Hin.
    destruct Hin as [u' [Hid' Hin']]. apply has_user_In. exists u'.
    split; [exact Hin' | congruence]. }
  assert (Hhp : forall id, Sql.has_post st id = true -> Sql.has_post st' id = true).
  { intros id H. apply has_post_In in H. destruct H as [p [Hin Hid]].
    apply (in_map (fun p => (p_id p, p_author_id p))) in Hin.
    rewrite <- Hp in Hin. apply in_map_iff in Hin.
    destruct Hin as [p' [Hid' Hin']]. apply has_post_In. exists p'.
    split; [exact Hin' |]. inversion Hid'. congruence. }
  assert (Hhc : forall id, Sql.has_comment st id = true ->
                           Sql.has_comment st' id = true).
  { intros id H. apply has_comment_In in H. destruct H as [c [Hin Hid]].
    apply (in_map (fun c => (c_id c, c_post_id c, c_user_id c, c_parent_id c)))
      in Hin.
    rewrite <- Hc in Hin. apply in_map_iff in Hin.
    destruct Hin as [c' [Hid' Hin']]. apply has_comment_In. exists c'.
    split; [exact Hin' |]. inversion Hid'. congruence. }
  split; [| split].
  - intros p' Hin. apply (in_map (fun p => (p_id p, p_author_id p))) in Hin.
    rewrite Hp in Hin. apply in_map_iff in Hin. destruct Hin as [p [Heq Hin]].
    inversion Heq as [[Hid Hauthor]].
    replace (p_author_id p') with (p_author_id p) by congruence.
    now apply Hhu, Hpo.
  - intros c' Hin.
    apply (in_map (fun c => (c_id c, c_post_id c, c_user_id c, c_parent_id c)))
      in Hin.
    rewrite Hc in Hin. apply in_map_iff in Hin. destruct Hin as [c [Heq Hin]].
    inversion Heq as [[Hid Hpost Huser Hpar]].
    destruct (Hco c Hin) as [H1 [H2 H3]].
    replace (c_post_id c') with (c_post_id c) by congruence.
    replace (c_user_id c') with (c_user_id c) by congruence.
    replace (c_parent_id c') with (c_parent_id c) by congruence.
    split; [now apply Hhp |].
    split; [now apply Hhu |]. intros q Hq. now apply Hhc, H3.
  - intros l Hin. rewrite Hl in Hin. destruct (Hli l Hin) as [H1 H2].
    split; [now apply Hhu | now apply Hhp].
Qed.

Lemma map_update_same_key {A K : Type} (key : A -> K) (sel : A -> bool)
    (f : A -> A) (l : list A) :
  (forall a, key (f a) = key a) ->
  map key (map (fun a => if sel a then f a else a) l) = map key l.
Proof.
  intros H. rewrite map_map. apply map_ext. intros a.
  destruct (sel a); [apply H | reflexivity].
Qed.

Lemma references_ok_update_post id f st :
  (forall p, p_id (f p) = p_id p) ->
  (forall p, p_author_id (f p) = p_author_id p) ->
  references_ok st -> references_ok (Sql.update_post id f st).
Proof.
  intros Hid Hauthor. apply references_ok_same_keys; try reflexivity.
  unfold Sql.update_post. cbn [posts].
  apply (map_update_same_key (fun p => (p_id p, p_author_id p))
           (fun p => p_id p =? id) f).
  intros p. now rewrite Hid, Hauthor.
Qed.

Lemma references_ok_update_content id content st :
  references_ok st -> references_ok (Sql.update_comment_content id content st).
Proof.
  apply references_ok_same_keys; try reflexivity.
  unfold Sql.update_comment_content. cbn [comments].
  now apply (map_update_same_key
               (fun c => (c_id c, c_post_id c, c_user_id c, c_parent_id c))
               (fun c => c_id c =? id)
               (fun c => mkComment (c_id c) content (c_post_id c) (c_user_id c)
                           (c_parent_id c) (c_created_at c))).
Qed.

Lemma references_ok_update_role id r st :
  references_ok st -> references_ok (AdminWrites.update_role id r st).
Proof.
  apply references_ok_same_keys; try reflexivity.
  unfold AdminWrites.update_role. cbn [users].
  now apply (map_update_same_key u_id (fun u => u_id u =? id)
               (AdminWrites.set_role r)).
Qed.

Lemma references_ok_new_comment st row :
  references_ok st ->
  Sql.has_post st (c_post_id row) = true ->
  Sql.has_user st (c_user_id row) = true ->
  (forall q, c_parent_id row = Some q -> Sql.has_comment st q = true) ->
  references_ok (with_new_comment st row).
Proof.
  intros [Hp [Hc Hl]] Hpost Huser Hparent.
  assert (Hmono : forall q, Sql.has_comment st q = true ->
                            Sql.has_comment (with_new_comment st row) q = true).
  { intros q H. unfold Sql.has_comment, with_new_comment. cbn [comments].
    rewrite existsb_app. unfold Sql.has_comment in H. now rewrite H. }
  split; [exact Hp |]. split; [| exact Hl].
  intros c Hin. unfold with_new_comment in Hin. cbn [comments] in Hin.
  apply in_app_iff in Hin. destruct Hin as [Hin | [<- | []]].
  - destruct (Hc c Hin) as [H1 [H2 H3]]. split; [exact H1 |].
    split; [exact H2 |]. intros q Hq. now apply Hmono, H3.
  - split; [exact Hpost |]. split; [exact Huser |].
    intros q Hq. now apply Hmono, Hparent.
Qed.

Lemma references_ok_new_like st requester pid now :
  references_ok st ->
  Sql.has_user st (u_id requester) = true -> Sql.has_post st pid = true ->
  references_ok (with_new_like st requester pid now).
Proof.
  intros [Hp [Hc Hl]] Huser Hpost. split; [exact Hp |]. split; [exact Hc |].
  intros l Hin. unfold with_new_like in Hin. cbn [likes] in Hin.
  apply in_app_iff in Hin. destruct Hin as [Hin | [<- | []]].
  - now apply Hl.
  - now split.
Qed.

Lemma references_ok_delete_like uid pid st :
  references_ok st -> references_ok (Sql.delete_like uid pid st).
Proof.
  intros [Hp [Hc Hl]]. split; [exact Hp |]. split; [exact Hc |].
  intros l Hin. cbn [Sql.delete_like likes] in Hin.
  apply filter_In in Hin. now apply Hl.
Qed.

Lemma handle_keeps_references r st :
  references_ok st -> references_ok (fst (handle r st)).
Proof.
  intros Hok. destruct r; cbn [handle].
  - destruct (add_comment_cases requester content post_id parent_id now st)
      as [[Hsame _] | [pid [row [_ [_ [[p [Hp [Hpid _]]]
                                         [Hpar [Hrow [_ [Huser Heq]]]]]]]]]].
    + now rewrite Hsame.
    + rewrite Heq. cbn [fst]. apply references_ok_new_comment; subst row;
        cbn [c_post_id c_user_id c_parent_id]; auto.
      * apply has_post_In. now exists p.
      * intros q Hq. destruct (JS.truthy parent_id); [| discriminate].
        destruct (Hpar eq_refl) as [x [Hx [Hid _]]].
        apply has_comment_In. exists x. split; [exact Hx | congruence].
  - unfold Comments.update_comment.
    destruct (content =? EmptyString)%string; [exact Hok |].
    destruct (filter _ (comments st)); [exact Hok |].
    now apply references_ok_update_content.
  - unfold Comments.delete_comment.
    destruct (filter _ (comments st)); [exact Hok |].
    now apply references_ok_delete_comments.
  - now apply references_ok_delete_comments.
  - rewrite get_post_store. now apply references_ok_update_post.
  - unfold Posts.toggle_like.
    destruct (filter _ (likes st)) as [| y ys].
    + unfold Sql.insert_like. destruct (existsb _ (likes st)); [exact Hok |].
      destruct (Sql.has_user st (u_id requester)) eqn:Hu; [| exact Hok].
      destruct (Sql.has_post st postId) eqn:Hp; [| exact Hok].
      cbn [negb fst]. apply references_ok_update_post; try reflexivity.
      now apply (references_ok_new_like st requester postId now).
    + cbn [fst]. apply references_ok_update_post; try reflexivity.
      now apply references_ok_delete_like.
  - unfold Posts.delete_post.
    destruct (filter _ (posts st)); [exact Hok |].
    now apply references_ok_delete_posts.
  - now apply references_ok_delete_posts.
  - unfold Admin.delete_user.
    destruct (userId =? u_id requester); [exact Hok |].
    now apply references_ok_delete_users.
  - unfold Admin.update_post_status.
    destruct (if (new_status =? "draft")%string then _ else _); [| exact Hok].
    now apply references_ok_update_post.
Qed.

Lemma perform_keeps_references w st :
  references_ok st -> references_ok (fst (perform w st)).
Proof.
  intros Hok. destruct w; cbn [perform].
  - now apply handle_keeps_references.
  - unfold PostWrites.update_post.
    destruct (PostWrites.update_post_errors _ _ _); [| exact Hok].
    destruct (filter _ (posts st)); [exact Hok |].
    now apply references_ok_update_post.
  - unfold AdminWrites.update_user_role.
    destruct (if (new_role =? "user")%string then _ else _); [| exact Hok].
    destruct (_ && _); [exact Hok |].
    now apply references_ok_update_role.
Qed.

Lemma perform_all_keeps_references ws :
  forall st, references_ok st -> references_ok (perform_all ws st).
Proof.
  unfold perform_all. induction ws as [| w ws IH]; intros st Hok; [exact Hok |].
  cbn [fold_left]. apply IH. now apply perform_keeps_references.
Qed.

(** No write leaves a dangling reference: if every post has its author,
    every comment its post, its author and its parent, and every like its
    user and its post, the same holds after each modelled write (comments,
    likes, views, posts, users, roles, status) and after any sequence of
    them. *)
Theorem writes_keep_references st :
  references_ok st ->
  (forall w, references_ok (fst (perform w st)))
  /\ (forall ws, references_ok (perform_all ws st)).
Proof.
  intros Hok. split.
  - intros w. now apply perform_keeps_references.
  - intros ws. now apply perform_all_keeps_references.
Qed.

Lemma writes_keep_references_witness :
  references_ok
    (perform_all
       [Handled (AdminDeleteUser Sample.root 2);
        Handled (ToggleLike Sample.alice 1 160);
        UpdatePost Sample.alice 1 "Hello again" "Edited" "draft";
        Handled (DeletePost Sample.root 2)]
       Sample2.liked_thread).
Proof.
  assert (H : references_ok Sample2.liked_thread)
    by (apply references_okb_true; reflexivity).
  destruct (writes_keep_references Sample2.liked_thread H) as [_ H2].
  apply H2.
Defined.

(* ================================================================== *)
(** ** The likes counter and the Like rows *)
(* ================================================================== *)

Lemma NoDup_map_snoc {A K : Type} (key : A -> K) (l : list A) (x : A) :
  NoDup (map key l) -> ~ In (key x) (map key l) ->
  NoDup (map key (l ++ [x])).
Proof.
  intros Hnd Hx. rewrite map_app. cbn [map].
  induction (map key l) as [| k ks IH]; cbn [app].
  - constructor; [intros [] | constructor].
  - inversion Hnd as [| ? ? Hk Hks]; subst. constructor.
    + intros Hin. apply in_app_iff in Hin. destruct Hin as [Hin | [Hin | []]].
      * now apply Hk.
      * apply Hx. now left.
    + apply IH; [exact Hks |]. intros Hin. apply Hx. now right.
Qed.

Lemma NoDup_map_filter {A K : Type} (key : A -> K) (g : A -> bool) (l : list A) :
  NoDup (map key l) -> NoDup (map key (filter g l)).
Proof.
  induction l as [| a l IH]; cbn [map filter]; intros Hnd; [constructor |].
  inversion Hnd as [| ? ? Hk Hks]; subst.
  destruct (g a); cbn [map]; [constructor |]; auto.
  intros Hin. apply Hk. apply in_map_iff in Hin. destruct Hin as [x [Hx Hin]].
  apply filter_In in Hin. rewrite <- Hx. apply in_map. tauto.
Qed.

(** Under the unique key at most one row is the like of a user on a post. *)
Lemma at_most_one_like ls (uid pid : Z) :
  NoDup (map (fun l => (l_user_id l, l_post_id l)) ls) ->
  Z.of_nat (List.length
              (filter (fun l => (l_user_id l =? uid) && (l_post_id l =? pid)) ls))
  <= 1.
Proof.
  induction ls as [| a ls IH]; cbn [map filter]; intros Hnd; [simpl; lia |].
  inversion Hnd as [| ? ? Hk Hks]; subst. specialize (IH Hks).
  destruct ((l_user_id a =? uid) && (l_post_id a =? pid)) eqn:E; [| exact IH].
  cbn [List.length]. rewrite filter_none; [simpl; lia |].
  intros x Hx. apply not_true_iff_false. intros Ex. apply Hk.
  apply andb_true_iff in E, Ex. destruct E as [E1 E2], Ex as [Ex1 Ex2].
  apply Z.eqb_eq in E1, E2, Ex1, Ex2.
  apply in_map_iff. exists x. split; [congruence | exact Hx].
Qed.

Lemma filter_split_length {A : Type} (f g : A -> bool) (l : list A) :
  List.length (filter f l)
  = (List.length (filter f (filter (fun x => negb (g x)) l))
     + List.length (filter (fun x => f x && g x) l))%nat.
Proof.
  induction l as [| a l IH]; [reflexivity |].
  cbn [filter]. destruct (f a) eqn:Ef, (g a) eqn:Eg; cbn [negb andb filter];
    rewrite ?Ef; cbn [List.length]; lia.
Qed.

(** The row count of a post after the unlike and after the like. *)
Lemma like_count_after_unlike st uid pid d x y ys :
  one_like_each st ->
  filter (fun l => (l_user_id l =? uid) && (l_post_id l =? pid)) (likes st)
  = y :: ys ->
  like_count (Sql.update_post pid (Sql.add_likes d) (Sql.delete_like uid pid st)) x
  = like_count st x - (if x =? pid then 1 else 0).
Proof.
  intros Hnd Hf. unfold like_count. cbn [Sql.update_post Sql.delete_like likes].
  rewrite (filter_split_length (fun l => l_post_id l =? x)
             (fun l => (l_user_id l =? uid) && (l_post_id l =? pid)) (likes st)).
  destruct (x =? pid) eqn:E.
  - apply Z.eqb_eq in E. subst x.
    rewrite (filter_ext (fun l => (l_post_id l =? pid)
                                  && ((l_user_id l =? uid) && (l_post_id l =? pid)))
               (fun l => (l_user_id l =? uid) && (l_post_id l =? pid))).
    + pose proof (at_most_one_like (likes st) uid pid Hnd) as Hle.
      rewrite Hf in *. cbn [List.length] in *. lia.
    + intros l. destruct (l_post_id l =? pid), (l_user_id l =? uid); reflexivity.
  - rewrite (filter_none (fun l => (l_post_id l =? x)
                                   && ((l_user_id l =? uid) && (l_post_id l =? pid)))).
    + cbn [List.length]. lia.
    + intros l _. destruct (l_post_id l =? x) eqn:E1; [| reflexivity].
      destruct (l_post_id l =? pid) eqn:E2; [| now rewrite andb_false_r].
      apply Z.eqb_eq in E1, E2. apply Z.eqb_neq in E. congruence.
Qed.

Lemma like_count_after_like st requester pid d now x :
  like_count (Sql.update_post pid (Sql.add_likes d)
                (with_new_like st requester pid now)) x
  = like_count st x + (if x =? pid then 1 else 0).
Proof.
  unfold like_count, with_new_like. cbn [Sql.update_post likes].
  rewrite filter_app, length_app. cbn [filter l_post_id].
  rewrite (Z.eqb_sym pid x). destruct (x =? pid); cbn [List.length]; lia.
Qed.

Lemma likes_counted_update st st0 pid d :
  posts st0 = posts st ->
  (forall p, In p (posts st) ->
             p_likes p + (if p_id p =? pid then d else 0)
             = like_count (Sql.update_post pid (Sql.add_likes d) st0) (p_id p)) ->
  likes_counted (Sql.update_post pid (Sql.add_likes d) st0).
Proof.
  intros Hposts H p' Hin. unfold Sql.update_post in Hin at 1. cbn [posts] in Hin.
  rewrite Hposts in Hin. apply in_map_iff in Hin. destruct Hin as [p [<- Hp]].
  specialize (H p Hp). destruct (p_id p =? pid) eqn:E.
  - cbn [Sql.add_likes p_likes p_id]. exact H.
  - rewrite <- H. lia.
Qed.

(** POST /posts/:id/like keeps the likes counters in step with the Like
    rows: when each (user, post) pair has at most one row and every post's
    counter is the number of its rows, the same holds after the toggle,
    whatever its answer. *)
Theorem toggle_like_keeps_counters requester postId now st :
  one_like_each st -> likes_counted st ->
  one_like_each (fst (Posts.toggle_like requester postId now st))
  /\ likes_counted (fst (Posts.toggle_like requester postId now st)).
Proof.
  intros Hnd Hcount. unfold Posts.toggle_like.
  destruct (filter _ (likes st)) as [| y ys] eqn:Hf.
  - unfold Sql.insert_like. pose proof Hf as Hl. apply liked_filter in Hl.
    unfold liked in Hl. rewrite Hl.
    destruct (Sql.has_user st (u_id requester)); [| now split].
    destruct (Sql.has_post st postId); [| now split].
    cbn [negb fst]. fold (with_new_like st requester postId now). split.
    + unfold one_like_each, with_new_like. cbn [Sql.update_post likes].
      apply NoDup_map_snoc; [exact Hnd |]. cbn [l_user_id l_post_id].
      intros Hin. apply in_map_iff in Hin. destruct Hin as [l [Hpair Hin]].
      inversion Hpair as [[Hu Hp]].
      assert (Hex : existsb (fun l => (l_user_id l =? u_id requester)
                                      && (l_post_id l =? postId)) (likes st) = true).
      { apply existsb_exists. exists l. split; [exact Hin |].
        now rewrite Hu, Hp, !Z.eqb_refl. }
      congruence.
    + apply (likes_counted_update st); [reflexivity |]. intros p Hp.
      rewrite like_count_after_like, (Hcount p Hp). reflexivity.
  - cbn [fst]. split.
    + unfold one_like_each. cbn [Sql.update_post Sql.delete_like likes].
      now apply NoDup_map_filter.
    + apply (likes_counted_update st); [reflexivity |]. intros p Hp.
      rewrite (like_count_after_unlike st (u_id requester) postId (-1)
                 (p_id p) y ys Hnd Hf), (Hcount p Hp).
      destruct (p_id p =? postId); lia.
Qed.

Lemma toggle_like_keeps_counters_witness :
  one_like_each (fst (Posts.toggle_like Sample.bob 1 170 Sample2.liked_thread))
  /\ likes_counted (fst (Posts.toggle_like Sample.bob 1 170 Sample2.liked_thread)).
Proof.
  apply toggle_like_keeps_counters.
  - unfold one_like_each. simpl. repeat constructor; simpl; intuition congruence.
  - intros p Hp. simpl in Hp.
    destruct Hp as [Hp | [Hp | [Hp | []]]]; subst p; reflexivity.
Defined.

(* ================================================================== *)
(** ** Editing comments and posts, changing roles *)
(* ================================================================== *)

Lemma update_comment_content_twice id content st :
  Sql.update_comment_content id content (Sql.update_comment_content id content st)
  = Sql.update_comment_content id content st.
Proof.
  unfold Sql.update_comment_content. cbn [users posts comments likes
    next_comment_id next_like_id]. f_equal. rewrite map_map. apply map_ext.
  intros c. destruct (c_id c =? id) eqn:E; cbn [c_id]; now rewrite E.
Qed.

(** PUT /comments/:id changes nothing but the content of the comments with
    that id: users, posts and likes, and the id, post, author, parent and
    creation time of every comment are as before, comments with another id
    are untouched, and repeating the request changes nothing more. *)
Theorem update_comment_touches_content_only requester commentId content st :
  users (fst (Comments.update_comment requester commentId content st)) = users st
  /\ posts (fst (Comments.update_comment requester commentId content st)) = posts st
  /\ likes (fst (Comments.update_comment requester commentId content st)) = likes st
  /\ map (fun c => (c_id c, c_post_id c, c_user_id c, c_parent_id c, c_created_at c))
       (comments (fst (Comments.update_comment requester commentId content st)))
     = map (fun c => (c_id c, c_post_id c, c_user_id c, c_parent_id c, c_created_at c))
         (comments st)
  /\ (forall c, In c (comments st) -> c_id c <> commentId ->
        In c (comments (fst (Comments.update_comment requester commentId content st))))
  /\ fst (Comments.update_comment requester commentId content
            (fst (Comments.update_comment requester commentId content st)))
     = fst (Comments.update_comment requester commentId content st).
Proof.
  assert (Hcases :
    fst (Comments.update_comment requester commentId content st) = st
    \/ fst (Comments.update_comment requester commentId content st)
       = Sql.update_comment_content commentId content st).
  { unfold Comments.update_comment.
    destruct (content =? EmptyString)%string; [now left |].
    destruct (filter _ (comments st)); [now left | now right]. }
  assert (Hagain : forall s,
    fst (Comments.update_comment requester commentId content
           (Sql.update_comment_content commentId content s))
    = Sql.update_comment_content commentId content s).
  { intros s. unfold Comments.update_comment.
    destruct (content =? EmptyString)%string; [reflexivity |].
    destruct (filter _ (comments (Sql.update_comment_content commentId content s)));
      cbn [fst]; [reflexivity | apply update_comment_content_twice]. }
  destruct Hcases as [H | H].
  - rewrite H. repeat split; auto.
  - rewrite !H. split; [reflexivity |]. split; [reflexivity |].
    split; [reflexivity |]. split; [| split].
    + unfold Sql.update_comment_content. cbn [comments].
      now apply (map_update_same_key
                   (fun c => (c_id c, c_post_id c, c_user_id c, c_parent_id c,
                              c_created_at c))
                   (fun c => c_id c =? commentId)).
    + intros c Hin Hne. unfold Sql.update_comment_content. cbn [comments].
      apply in_map_iff. exists c. split; [| exact Hin].
      apply Z.eqb_neq in Hne. now rewrite Hne.
    + apply Hagain.
Qed.





(* ================================================================== *)
(** ** Requests one after another *)
(* ================================================================== *)

Lemma no_published_match postId (l : list Post) :
  (forall p, In p l -> p_id p = postId -> p_status p = draft) ->
  filter (fun p => (p_id p =? postId) && Status_eqb (p_status p) published) l = [].
Proof.
  intros H. apply filter_none. intros p Hp.
  destruct (p_id p =? postId) eqn:E; [| reflexivity].
  apply Z.eqb_eq in E. now rewrite (H p Hp E).
Qed.

Lemma drafted_posts postId (l : list Post) p :
  In p (map (fun p => if p_id p =? postId then Sql.set_status draft p else p) l) ->
  p_id p = postId -> p_status p = draft.
Proof.
  intros Hin Hid. apply in_map_iff in Hin. destruct Hin as [p0 [Heq Hp0]].
  destruct (p_id p0 =? postId) eqn:E; subst p; [reflexivity |].
  apply Z.eqb_neq in E. contradiction.
Qed.

(** Once an admin has set a post to draft (PUT /admin/posts/:id/status), a
    valid POST /comments for it answers 404 and stores nothing and
    GET /posts/:id answers 404, while the listings of its comments and of
    their replies answer as before: they never look at the post. *)
Theorem unpublished_post_takes_no_comments
    requester content post_id parent_id now postId st :
  JS.sql_int post_id = Some postId ->
  Comments.add_comment_errors content post_id parent_id = [] ->
  let st' := fst (Admin.update_post_status postId "draft" st) in
  Comments.add_comment requester content post_id parent_id now st'
  = (st', mkResponse 404 (Message "Post not found"))
  /\ status (snd (Posts.get_post postId st')) = 404
  /\ (forall pid q_page q_limit,
        Comments.get_post_comments pid q_page q_limit st'
        = Comments.get_post_comments pid q_page q_limit st)
  /\ (forall cid, Comments.get_replies cid st' = Comments.get_replies cid st).
Proof.
  intros Hpid Herr st'. subst st'. cbn [Admin.update_post_status String.eqb
    Ascii.eqb Bool.eqb fst]. cbv iota beta.
  split; [| split; [| split]].
  - unfold Comments.add_comment. rewrite Herr, Hpid. cbn [sql_eq].
    unfold Sql.update_post at 1. cbn [posts].
    rewrite no_published_match; [reflexivity |]. apply drafted_posts.
  - unfold Posts.get_post. cbv zeta.
    rewrite no_published_match; [reflexivity |].
    intros p Hin Hid. unfold Sql.update_post in Hin. cbn [posts] in Hin.
    apply in_map_iff in Hin. destruct Hin as [p0 [Heq Hp0]].
    destruct (p_id p0 =? postId) eqn:E; subst p.
    + cbn [Sql.add_views p_status].
      apply (drafted_posts postId (posts st) p0 Hp0). now apply Z.eqb_eq.
    + apply Z.eqb_neq in E. contradiction.
  - reflexivity.
  - reflexivity.
Qed.

Lemma unpublished_post_takes_no_comments_witness :
  Comments.add_comment Sample.bob "too late" (JS.JNum 1) JS.JUndefined 150
    (fst (Admin.update_post_status 1 "draft" Sample.thread))
  = (fst (Admin.update_post_status 1 "draft" Sample.thread),
     mkResponse 404 (Message "Post not found")).
Proof.
  apply (unpublished_post_takes_no_comments Sample.bob "too late" (JS.JNum 1)
           JS.JUndefined 150 1 Sample.thread); reflexivity.
Defined.

Lemma filter_snoc_length {A : Type} (f : A -> bool) (l : list A) (x : A) :
  Z.of_nat (List.length (filter f (l ++ [x])%list))
  = Z.of_nat (List.length (filter f l)) + (if f x then 1 else 0).
Proof.
  rewrite filter_app, length_app. cbn [filter].
  destruct (f x); cbn [List.length]; lia.
Qed.

(** A POST /comments that answers 201 has appended one row by the requester
    with the given content.  A reply is from then on among the replies
    listed for its parent, whose reply count went up by one while no post's
    top-level count changed; a top-level comment is among the top-level
    comments of its post, whose count went up by one. *)
Theorem added_comment_is_listed requester content post_id parent_id now st :
  status (snd (Comments.add_comment requester content post_id parent_id now st))
  = 201 ->
  let st' := fst (Comments.add_comment requester content post_id parent_id now st) in
  exists row u,
    comments st' = (comments st ++ [row])%list
    /\ In u (users st) /\ u_id u = u_id requester
    /\ c_content row = content /\ c_user_id row = u_id requester
    /\ match c_parent_id row with
       | Some q =>
           (exists vs,
              Comments.get_replies q st' = mkResponse 200 (Replies vs)
              /\ In (mkCommentView row (u_username u) (u_full_name u) (u_avatar u))
                   vs)
           /\ Comments.replies_count st' q = Comments.replies_count st q + 1
           /\ forall pid, Comments.count_top_level_of_post st' pid
                          = Comments.count_top_level_of_post st pid
       | None =>
           In (mkCommentItem
                 (mkCommentView row (u_username u) (u_full_name u) (u_avatar u))
                 (Comments.replies_count st' (c_id row)))
              (Comments.top_level_of_post st' (c_post_id row))
           /\ Comments.count_top_level_of_post st' (c_post_id row)
              = Comments.count_top_level_of_post st (c_post_id row) + 1
       end.
Proof.
  intros Hst st'. subst st'.
  destruct (add_comment_cases requester content post_id parent_id now st)
    as [[_ Hin] | [pid [row [_ [_ [_ [_ [Hrow [_ [Huser Heq]]]]]]]]]].
  { rewrite Hst in Hin. cbn [In] in Hin.
    destruct Hin as [H | [H | [H | []]]]; discriminate. }
  rewrite Heq. cbn [fst]. clear Heq Hst.
  apply has_user_In in Huser. destruct Huser as [u [Hu Huid]].
  exists row, u.
  assert (Hc : c_user_id row = u_id requester) by now subst row.
  assert (Hv : In (mkCommentView row (u_username u) (u_full_name u) (u_avatar u))
                 (Comments.join_user (with_new_comment st row) row)).
  { apply join_user_In. exists u. cbn [with_new_comment users].
    repeat split; [exact Hu | congruence]. }
  split; [reflexivity |]. split; [exact Hu |]. split; [exact Huid |].
  split; [now subst row |]. split; [exact Hc |].
  destruct (c_parent_id row) as [q |] eqn:Hpar.
  - split; [| split].
    + eexists. split; [reflexivity |]. apply in_flat_map. exists row.
      split; [| exact Hv]. apply order_by_In. apply filter_In.
      cbn [with_new_comment comments]. split.
      * apply in_or_app. right. now left.
      * rewrite Hpar. cbn [sql_eq]. apply Z.eqb_refl.
    + unfold Comments.replies_count. cbn [with_new_comment comments].
      rewrite filter_snoc_length, Hpar. cbn [sql_eq]. now rewrite Z.eqb_refl.
    + intros pid'. unfold Comments.count_top_level_of_post.
      cbn [with_new_comment comments].
      rewrite filter_snoc_length, Hpar. cbn [is_null].
      rewrite andb_false_r. lia.
  - split.
    + unfold Comments.top_level_of_post. apply in_map_iff.
      exists (mkCommentView row (u_username u) (u_full_name u) (u_avatar u)).
      split; [reflexivity |]. apply in_flat_map. exists row.
      split; [| exact Hv]. apply order_by_In. apply filter_In.
      cbn [with_new_comment comments]. split.
      * apply in_or_app. right. now left.
      * rewrite Hpar, Z.eqb_refl. reflexivity.
    + unfold Comments.count_top_level_of_post. cbn [with_new_comment comments].
      rewrite filter_snoc_length, Hpar, Z.eqb_refl. reflexivity.
Qed.

Lemma added_comment_is_listed_witness :
  exists row u,
    comments (fst (Comments.add_comment Sample.bob "me too" (JS.JStr "1")
                     (JS.JNum 2) 140 Sample.thread))
    = (comments Sample.thread ++ [row])%list
    /\ In u (users Sample.thread) /\ u_id u = 2
    /\ c_content row = "me too"%string /\ c_user_id row = 2.
Proof.
  destruct (added_comment_is_listed Sample.bob "me too" (JS.JStr "1") (JS.JNum 2)
              140 Sample.thread eq_refl)
    as [row [u [H1 [H2 [H3 [H4 [H5 _]]]]]]].
  exists row, u. repeat split; assumption.
Defined.

(** On a store whose foreign keys hold, deleting the comment a 201 answer
    of POST /comments has just created succeeds for its author and brings
    the comments table back to what it was; the other tables were never
    touched. *)
Theorem add_then_delete_restores requester content post_id parent_id now st :
  references_ok st ->
  status (snd (Comments.add_comment requester content post_id parent_id now st))
  = 201 ->
  let st1 := fst (Comments.add_comment requester content post_id parent_id now st) in
  let id := Sql.auto_increment (next_comment_id st) (map c_id (comments st)) in
  status (snd (Comments.delete_comment requester id st1)) = 200
  /\ comments (fst (Comments.delete_comment requester id st1)) = comments st
  /\ users (fst (Comments.delete_comment requester id st1)) = users st
  /\ posts (fst (Comments.delete_comment requester id st1)) = posts st
  /\ likes (fst (Comments.delete_comment requester id st1)) = likes st.
Proof.
  intros Href Hst st1 id. subst st1.
  destruct (add_comment_cases requester content post_id parent_id now st)
    as [[_ Hin] | [pid [row [_ [_ [_ [_ [Hrow [Hfresh [_ Heq]]]]]]]]]].
  { rewrite Hst in Hin. cbn [In] in Hin.
    destruct Hin as [H | [H | [H | []]]]; discriminate. }
  rewrite Heq. cbn [fst]. clear Heq Hst.
  assert (Hid : c_id row = id) by now subst row.
  assert (Hauthor : c_user_id row = u_id requester) by now subst row.
  rewrite Hid in Hfresh.
  assert (Hold : forall c, In c (comments st) -> id_or_parent_is id c = false).
  { intros c Hc. unfold id_or_parent_is. apply orb_false_iff. split.
    - apply Z.eqb_neq. intros E.
      assert (H : Sql.has_comment st id = true)
        by (apply has_comment_In; now exists c).
      congruence.
    - destruct (c_parent_id c) as [q |] eqn:Hq; [| reflexivity].
      cbn [sql_eq]. apply Z.eqb_neq. intros E. subst q.
      destruct Href as [_ [Hcs _]]. destruct (Hcs c Hc) as [_ [_ Hp]].
      specialize (Hp id Hq). congruence. }
  assert (Hnew : id_or_parent_is id row = true).
  { unfold id_or_parent_is. rewrite Hid, Z.eqb_refl. reflexivity. }
  unfold Comments.delete_comment.
  destruct (filter_nonempty
              (fun c => (c_id c =? id)
                        && ((c_user_id c =? u_id requester)
                            || Role_eqb (u_role requester) admin))
              (comments (with_new_comment st row)) row) as [y [r Hf]].
  { cbn [with_new_comment comments]. apply in_or_app. right. now left. }
  { rewrite Hid, Hauthor, !Z.eqb_refl. reflexivity. }
  rewrite Hf. cbn [fst snd status]. split; [reflexivity |].
  split; [| repeat split].
  unfold Sql.delete_comments_where. cbn [comments with_new_comment].
  rewrite delete_from_comments_exact.
  - rewrite filter_app. cbn [filter]. rewrite Hnew. cbn [negb].
    rewrite app_nil_r. apply filter_all. intros c Hc. now rewrite (Hold c Hc).
  - intros c x _ Hx Hsel Hpar. apply in_app_or in Hx. destruct Hx as [Hx | Hx].
    + rewrite (Hold x Hx) in Hsel. discriminate.
    + destruct Hx as [<- | []]. unfold id_or_parent_is.
      rewrite Hpar, Hid. cbn [sql_eq]. rewrite Z.eqb_refl. apply orb_true_r.
Qed.

Lemma add_then_delete_restores_witness :
  comments
    (fst (Comments.delete_comment Sample.bob 4
            (fst (Comments.add_comment Sample.bob "me too" (JS.JStr "1")
                    (JS.JNum 2) 140 Sample.thread))))
  = comments Sample.thread.
Proof.
  apply (add_then_delete_restores Sample.bob "me too" (JS.JStr "1") (JS.JNum 2)
           140 Sample.thread).
  - apply references_okb_true. reflexivity.
  - reflexivity.
Defined.

(* ================================================================== *)
(** ** The admin routes beside the member routes *)
(* ================================================================== *)

Lemma delete_posts_where_nothing sel st :
  filter sel (posts st) = [] -> Sql.delete_posts_where sel st = st.
Proof.
  intros Hnil. unfold Sql.delete_posts_where. rewrite Hnil. cbn [map].
  destruct st as [us ps cs ls nc nl].
  cbn [users posts comments likes next_comment_id next_like_id] in *. f_equal.
  - apply filter_all. intros p Hp. destruct (sel p) eqn:E; [| reflexivity].
    assert (H : In p (filter sel ps)) by (apply filter_In; now split).
    rewrite Hnil in H. destruct H.
  - apply SqlFacts.delete_from_comments_nothing. apply filter_none.
    intros x Hx. reflexivity.
  - apply filter_all. intros x Hx. reflexivity.
Qed.

Lemma delete_comments_where_nothing sel st :
  filter sel (comments st) = [] -> Sql.delete_comments_where sel st = st.
Proof.
  intros Hnil. unfold Sql.delete_comments_where.
  rewrite (SqlFacts.delete_from_comments_nothing sel (comments st) Hnil).
  now destruct st.
Qed.

Lemma admin_filter {A : Type} (f g : A -> bool) (l : list A) :
  filter (fun x => f x && (g x || Role_eqb admin admin)) l = filter f l.
Proof.
  apply filter_ext. intros x. cbn [Role_eqb].
  now rewrite orb_true_r, andb_true_r.
Qed.

(** For a requester whose role is admin, on a store whose foreign keys
    hold, DELETE /admin/posts/:id and DELETE /admin/comments/:id leave the
    same store as DELETE /posts/:id and DELETE /comments/:id.  The answers
    differ only for an id that is not there: the member routes say 404, the
    admin routes 200. *)
Theorem admin_routes_agree_with_member_routes requester st :
  u_role requester = admin -> references_ok st ->
  (forall postId,
     fst (Admin.delete_post postId st) = fst (Posts.delete_post requester postId st)
     /\ status (snd (Admin.delete_post postId st)) = 200
     /\ (status (snd (Posts.delete_post requester postId st)) = 404
         <-> Sql.has_post st postId = false)
     /\ (status (snd (Posts.delete_post requester postId st)) = 200
         <-> Sql.has_post st postId = true))
  /\ (forall commentId,
        fst (Admin.delete_comment commentId st)
        = fst (Comments.delete_comment requester commentId st)
        /\ status (snd (Admin.delete_comment commentId st)) = 200
        /\ (status (snd (Comments.delete_comment requester commentId st)) = 404
            <-> Sql.has_comment st commentId = false)
        /\ (status (snd (Comments.delete_comment requester commentId st)) = 200
            <-> Sql.has_comment st commentId = true)).
Proof.
  intros Hrole Href. split.
  - intros postId. unfold Admin.delete_post, Posts.delete_post.
    rewrite Hrole, admin_filter. cbn [fst snd status].
    destruct (filter (fun p => p_id p =? postId) (posts st)) as [| y r] eqn:Hf.
    + assert (Hno : Sql.has_post st postId = false).
      { apply not_true_iff_false. intros H. apply has_post_In in H.
        destruct H as [p [Hp Hid]].
        destruct (filter_nonempty (fun p => p_id p =? postId) (posts st) p Hp)
          as [y [r Hy]]; [now apply Z.eqb_eq | congruence]. }
      cbn [fst snd status]. rewrite Hno.
      split; [now apply delete_posts_where_nothing |].
      repeat split; auto; discriminate.
    + assert (Hyes : Sql.has_post st postId = true).
      { apply filter_cons_In in Hf. destruct Hf as [Hy Hid].
        apply has_post_In. exists y. split; [exact Hy | now apply Z.eqb_eq]. }
      cbn [fst snd status]. rewrite Hyes. repeat split; auto; discriminate.
  - intros commentId. unfold Admin.delete_comment, Comments.delete_comment.
    rewrite Hrole, admin_filter. cbn [fst snd status].
    destruct (filter (fun c => c_id c =? commentId) (comments st))
      as [| y r] eqn:Hf.
    + assert (Hno : Sql.has_comment st commentId = false).
      { apply not_true_iff_false. intros H. apply has_comment_In in H.
        destruct H as [c [Hc Hid]].
        destruct (filter_nonempty (fun c => c_id c =? commentId) (comments st) c Hc)
          as [y [r Hy]]; [now apply Z.eqb_eq | congruence]. }
      cbn [fst snd status]. rewrite Hno. split.
      * apply delete_comments_where_nothing. apply filter_none. intros c Hc.
        unfold id_or_parent_is. apply orb_false_iff. split.
        -- apply Z.eqb_neq. intros E.
           assert (H : Sql.has_comment st commentId = true)
             by (apply has_comment_In; now exists c).
           congruence.
        -- destruct (c_parent_id c) as [q |] eqn:Hq; [| reflexivity].
           cbn [sql_eq]. apply Z.eqb_neq. intros E. subst q.
           destruct Href as [_ [Hcs _]]. destruct (Hcs c Hc) as [_ [_ Hp]].
           specialize (Hp commentId Hq). congruence.
      * repeat split; auto; discriminate.
    + assert (Hyes : Sql.has_comment st commentId = true).
      { apply filter_cons_In in Hf. destruct Hf as [Hy Hid].
        apply has_comment_In. exists y. split; [exact Hy | now apply Z.eqb_eq]. }
      cbn [fst snd status]. rewrite Hyes. repeat split; auto; discriminate.
Qed.

Lemma admin_routes_agree_with_member_routes_witness :
  fst (Admin.delete_post 1 Sample.thread)
  = fst (Posts.delete_post Sample.root 1 Sample.thread)
  /\ fst (Admin.delete_comment 77 Sample.thread)
     = fst (Comments.delete_comment Sample.root 77 Sample.thread).
Proof.
  assert (Href : references_ok Sample.thread)
    by (apply references_okb_true; reflexivity).
  destruct (admin_routes_agree_with_member_routes Sample.root Sample.thread
              eq_refl Href) as [Hp Hc].
  split; [apply (Hp 1) | apply (Hc 77)].
Defined.
